(** * A shallow embedding of the stratum client controller of epic-miner

    Source: [src/src/bin/client.rs].  The controller is modelled as a
    state and error monad over the controller's own fields and over the
    world it talks to: the shared [Stats] behind its lock, the channel to
    the miner, the outbound wire and a trace of lock, stream and channel
    events.  The JSON layer (serde_json) is an external library: its
    decoders and printers are section variables, so every statement holds
    for any behaviour of them. *)

From Stdlib Require Import String Ascii List ZArith NArith Bool Lia.
From Stdlib Require Import DecimalString.
Import ListNotations.
Open Scope string_scope.
#[local] Set Warnings "-register-all".


(** ** Data model *)

(** [core::Algorithm]. *)
Inductive Algorithm := Cuckoo | RandomX | ProgPow.

Definition algorithm_eqb (a b : Algorithm) : bool :=
  match a, b with
  | Cuckoo, Cuckoo | RandomX, RandomX | ProgPow, ProgPow => true
  | _, _ => false
  end.

(** [client::Error]. *)
Inductive Error :=
| ConnectionError (msg : string)
| RequestError (msg : string)
| ResponseError (msg : string)
| JsonError (msg : string)
| GeneralError (msg : string).

(** A JSON value ([serde_json::Value]). *)
Inductive Json :=
| JNull
| JBool (b : bool)
| JNum (n : Z)
| JStr (s : string)
| JArr (l : list Json)
| JObj (l : list (string * Json)).

(** [types::RpcError], [types::RpcRequest], [types::RpcResponse]. *)
Record RpcError := { code : Z; message : string }.

Record RpcRequest := {
  req_id : string;
  req_jsonrpc : string;
  req_method : string;
  req_params : option Json }.

Record RpcResponse := {
  res_id : string;
  res_jsonrpc : string;
  res_method : string;
  res_result : option Json;
  res_error : option RpcError }.

(** [types::JobTemplate]; the epochs are passed through to the miner
    untouched and are kept as their JSON value. *)
Record JobTemplate := {
  height : N;
  job_id : N;
  pre_pow : string;
  algorithm : string;
  difficulty : list (string * N);
  block_difficulty : list (string * N);
  epochs : Json }.

(** [types::EpochTemplate]. *)
Record EpochTemplate := { seed_epochs : Json }.

(** [types::WorkerStatus]. *)
Record WorkerStatus := {
  ws_id : string;
  ws_height : N;
  ws_difficulty : N;
  ws_accepted : N;
  ws_rejected : N;
  ws_stale : N }.

(** [core::Solution], through its accessors [get_id], [get_nonce] and
    [get_algorithm_params]. *)
Record Solution := { sol_id : N; sol_nonce : N; sol_params : Json }.

(** [types::MinerMessage]: controller to miner. *)
Inductive MinerMessage :=
| ReceivedJob (h : N) (id : N) (diff : N) (pre : string)
| ReceivedSeed (e : Json)
| StopJob.

(** [types::ClientMessage]: miner to controller. *)
Inductive ClientMessage :=
| FoundSolution (h : N) (s : Solution)
| Shutdown.

(** The fields of [stats::Stats] the controller touches. *)
Record ClientStats := {
  connected : bool;
  connection_status : string;
  my_algorithm : string;
  algorithm_needed : string;
  current_network_difficulty : string;
  last_message_sent : string;
  last_message_received : string }.

Record SolutionStats := {
  num_shares_accepted : N;
  num_rejected : N;
  num_staled : N;
  num_blocks_found : N }.

Record Stats := { client_stats : ClientStats; solution_stats : SolutionStats }.

(** [std::io::ErrorKind], as far as the controller distinguishes it. *)
Inductive ErrorKind := BrokenPipe | WouldBlock | ConnectionReset | Interrupted | InvalidData | OtherKind.

Definition error_kind_eqb (a b : ErrorKind) : bool :=
  match a, b with
  | BrokenPipe, BrokenPipe | WouldBlock, WouldBlock | ConnectionReset, ConnectionReset
  | Interrupted, Interrupted | InvalidData, InvalidData | OtherKind, OtherKind => true
  | _, _ => false
  end.

(** What one [read_line] call on the stream gives back: the text appended
    to the (empty) line buffer, or an I/O error. *)
Inductive ReadLine := ReadOk (line : string) | ReadErr (k : ErrorKind).

(** The two-phase parse of an inbound frame in [Controller::run]: not JSON;
    a value whose [method] is ["job"], re-parsed as an [RpcRequest]; any
    other value, re-parsed as an [RpcResponse] ([None]: the typed decode
    failed). *)
Inductive Frame :=
| FNotJson
| FRequest (r : option RpcRequest)
| FResponse (r : option RpcResponse).

(** The transport: plain TCP or TLS with the SNI host it was opened with;
    [NoStream] is [Stream::new()], holding neither. *)
Inductive Stream := NoStream | PlainStream | TlsStream (host : string).

(** The fields of [Controller]. *)
Record Controller := {
  ctl_algorithm : Algorithm;
  server_url : string;
  server_login : option string;
  server_password : option string;
  server_tls_enabled : option bool;
  stream : option Stream;
  last_request_id : N }.

(** Events observable around the controller: the stats write lock being
    taken and dropped, stream I/O, and sends on the miner channel. *)
Inductive Event :=
| EvLockAcquire
| EvLockRelease
| EvStreamWrite (s : string)
| EvStreamFlush
| EvStreamRead
| EvMinerSend (m : MinerMessage).

(** The world the controller shares: [poisoned] is the state of the
    [RwLock], [miner_alive] whether the miner's receiver still exists,
    [miner_rx] what the miner has received, [wire] the requests written to
    the server. *)
Record World := {
  stats : Stats;
  poisoned : bool;
  miner_alive : bool;
  miner_rx : list MinerMessage;
  wire : list RpcRequest;
  events : list Event }.

Record St := { ctl : Controller; world : World }.

(** ** Helpers on strings *)

(** [str::contains]. *)
Fixpoint contains (s pat : string) : bool :=
  prefix pat s ||
  match s with
  | EmptyString => false
  | String _ s' => contains s' pat
  end.

Definition string_of_N (n : N) : string := NilZero.string_of_uint (N.to_uint n).
Definition string_of_Z (z : Z) : string := NilZero.string_of_int (Z.to_int z).

Definition cat (l : list string) : string := String.concat "" l.

(** The double quote character, as a one-character string. *)
Definition dq : string := String "034"%char EmptyString.

(** [format!("{:?}", s)] for a string (without escapes). *)
Definition debug_string (s : string) : string := cat [dq; s; dq].

(** [format!("{:?}", err)] for an [RpcError]. *)
Definition debug_rpc_error (e : RpcError) : string :=
  cat ["RpcError { code: "; string_of_Z (code e); ", message: ";
       debug_string (message e); " }"].

(** ** The state and error monad *)

Inductive Res (A : Type) := Ok (a : A) | Err (e : Error).
Arguments Ok {A} a.
Arguments Err {A} e.

Definition M (A : Type) := St -> Res A * St.

Definition ret {A} (a : A) : M A := fun s => (Ok a, s).
Definition throw {A} (e : Error) : M A := fun s => (Err e, s).
Definition bind {A B} (c : M A) (k : A -> M B) : M B :=
  fun s => match c s with
           | (Ok a, s') => k a s'
           | (Err e, s') => (Err e, s')
           end.

Notation "x <- c ;; k" := (bind c (fun x => k))
  (at level 61, c at next level, right associativity).
Notation "c ;;; k" := (bind c (fun _ => k))
  (at level 61, right associativity).

Definition lift {A} (r : Res A) : M A :=
  match r with Ok a => ret a | Err e => throw e end.

(** [let _ = c;]: run [c], drop its result. *)
Definition ignore {A} (c : M A) : M unit :=
  fun s => (Ok tt, snd (c s)).

Definition get_ctl : M Controller := fun s => (Ok (ctl s), s).

Definition set_world (w : World) (s : St) : St := {| ctl := ctl s; world := w |}.

Definition with_events (f : list Event -> list Event) (w : World) : World :=
  {| stats := stats w; poisoned := poisoned w; miner_alive := miner_alive w;
     miner_rx := miner_rx w; wire := wire w; events := f (events w) |}.

Definition log_event (ev : Event) : M unit :=
  fun s => (Ok tt, set_world (with_events (fun l => app l [ev]) (world s)) s).

Definition set_stream (o : option Stream) : M unit :=
  fun s =>
    let c := ctl s in
    (Ok tt, {| ctl := {| ctl_algorithm := ctl_algorithm c; server_url := server_url c;
                         server_login := server_login c; server_password := server_password c;
                         server_tls_enabled := server_tls_enabled c; stream := o;
                         last_request_id := last_request_id c |};
               world := world s |}).

(** [self.stats.write()?]: fails on a poisoned lock. *)
Definition lock_write : M unit :=
  fun s => if poisoned (world s)
           then (Err (GeneralError "Failed to get lock"), s)
           else log_event EvLockAcquire s.

Definition unlock : M unit := log_event EvLockRelease.

(** A write guard held for the scope of [body] and dropped when the scope
    ends, whether [body] returned normally or with [?]. *)
Definition scoped_write {A} (body : M A) : M A :=
  lock_write ;;;
  fun s => let (r, s') := body s in
           match unlock s' with (_, s'') => (r, s'') end.

Definition modify_stats (f : Stats -> Stats) : M unit :=
  fun s =>
    let w := world s in
    (Ok tt, set_world {| stats := f (stats w); poisoned := poisoned w;
                         miner_alive := miner_alive w; miner_rx := miner_rx w;
                         wire := wire w; events := events w |} s).

Definition modify_client (f : ClientStats -> ClientStats) : M unit :=
  modify_stats (fun st => {| client_stats := f (client_stats st);
                             solution_stats := solution_stats st |}).

Definition modify_solution (f : SolutionStats -> SolutionStats) : M unit :=
  modify_stats (fun st => {| client_stats := client_stats st;
                             solution_stats := f (solution_stats st) |}).

(** [self.miner_tx.send(m)]: fails when the miner's receiver is gone. *)
Definition miner_send (m : MinerMessage) : M unit :=
  log_event (EvMinerSend m) ;;;
  fun s =>
    let w := world s in
    if miner_alive w
    then (Ok tt, set_world {| stats := stats w; poisoned := poisoned w;
                              miner_alive := true; miner_rx := app (miner_rx w) [m];
                              wire := wire w; events := events w |} s)
    else (Err (GeneralError "Failed to send to a channel"), s).

(** Writing a request on the stream (its [serde_json::to_string] form,
    followed by ["\n"]); the stream's results are dropped by the code. *)
Definition stream_write_request (r : RpcRequest) : M unit :=
  fun s =>
    let w := world s in
    (Ok tt, set_world {| stats := stats w; poisoned := poisoned w;
                         miner_alive := miner_alive w; miner_rx := miner_rx w;
                         wire := app (wire w) [r];
                         events := app (events w) [EvStreamWrite (req_method r)] |} s).

(** ** Setters on the stats record *)

Definition set_connected (b : bool) (c : ClientStats) : ClientStats :=
  {| connected := b; connection_status := connection_status c;
     my_algorithm := my_algorithm c; algorithm_needed := algorithm_needed c;
     current_network_difficulty := current_network_difficulty c;
     last_message_sent := last_message_sent c;
     last_message_received := last_message_received c |}.

Definition set_connection_status (v : string) (c : ClientStats) : ClientStats :=
  {| connected := connected c; connection_status := v;
     my_algorithm := my_algorithm c; algorithm_needed := algorithm_needed c;
     current_network_difficulty := current_network_difficulty c;
     last_message_sent := last_message_sent c;
     last_message_received := last_message_received c |}.

Definition set_my_algorithm (v : string) (c : ClientStats) : ClientStats :=
  {| connected := connected c; connection_status := connection_status c;
     my_algorithm := v; algorithm_needed := algorithm_needed c;
     current_network_difficulty := current_network_difficulty c;
     last_message_sent := last_message_sent c;
     last_message_received := last_message_received c |}.

Definition set_algorithm_needed (v : string) (c : ClientStats) : ClientStats :=
  {| connected := connected c; connection_status := connection_status c;
     my_algorithm := my_algorithm c; algorithm_needed := v;
     current_network_difficulty := current_network_difficulty c;
     last_message_sent := last_message_sent c;
     last_message_received := last_message_received c |}.

Definition set_current_network_difficulty (v : string) (c : ClientStats) : ClientStats :=
  {| connected := connected c; connection_status := connection_status c;
     my_algorithm := my_algorithm c; algorithm_needed := algorithm_needed c;
     current_network_difficulty := v;
     last_message_sent := last_message_sent c;
     last_message_received := last_message_received c |}.

Definition set_last_message_sent (v : string) (c : ClientStats) : ClientStats :=
  {| connected := connected c; connection_status := connection_status c;
     my_algorithm := my_algorithm c; algorithm_needed := algorithm_needed c;
     current_network_difficulty := current_network_difficulty c;
     last_message_sent := v;
     last_message_received := last_message_received c |}.

Definition set_last_message_received (v : string) (c : ClientStats) : ClientStats :=
  {| connected := connected c; connection_status := connection_status c;
     my_algorithm := my_algorithm c; algorithm_needed := algorithm_needed c;
     current_network_difficulty := current_network_difficulty c;
     last_message_sent := last_message_sent c;
     last_message_received := v |}.

Definition incr_shares_accepted (s : SolutionStats) : SolutionStats :=
  {| num_shares_accepted := num_shares_accepted s + 1; num_rejected := num_rejected s;
     num_staled := num_staled s; num_blocks_found := num_blocks_found s |}.

Definition incr_rejected (s : SolutionStats) : SolutionStats :=
  {| num_shares_accepted := num_shares_accepted s; num_rejected := num_rejected s + 1;
     num_staled := num_staled s; num_blocks_found := num_blocks_found s |}.

Definition incr_staled (s : SolutionStats) : SolutionStats :=
  {| num_shares_accepted := num_shares_accepted s; num_rejected := num_rejected s;
     num_staled := num_staled s + 1; num_blocks_found := num_blocks_found s |}.

Definition incr_blocks_found (s : SolutionStats) : SolutionStats :=
  {| num_shares_accepted := num_shares_accepted s; num_rejected := num_rejected s;
     num_staled := num_staled s; num_blocks_found := num_blocks_found s + 1 |}.

(** ** Pure helpers of [Controller] *)

(** [invlalid_error_response]. *)
Definition invlalid_error_response : RpcError :=
  {| code := 0; message := "Invalid error response received" |}.

(** [Controller::parse_algorithm]. *)
Definition parse_algorithm (a : Algorithm) : string :=
  match a with
  | Cuckoo => "cuckoo"
  | RandomX => "randomx"
  | ProgPow => "progpow"
  end.

(** [Controller::get_parse_algorithm]. *)
Definition get_parse_algorithm (algo : string) : Res Algorithm :=
  if String.eqb algo "cuckoo" then Ok Cuckoo
  else if String.eqb algo "randomx" then Ok RandomX
  else if String.eqb algo "progpow" then Ok ProgPow
  else Err (RequestError "Algorithm isn't supported!").

(** [Controller::parse_difficulty]: the last entry of each known name wins. *)
Definition parse_difficulty (job_diff : list (string * N)) : string :=
  let '(cuckoo_diff, progpow_diff, randomx_diff) :=
    fold_left (fun '(c, p, r) '(algo, diff) =>
                 if String.eqb algo "cuckoo" then (string_of_N diff, p, r)
                 else if String.eqb algo "randomx" then (c, p, string_of_N diff)
                 else if String.eqb algo "progpow" then (c, string_of_N diff, r)
                 else (c, p, r))
              job_diff ("Nan", "Nan", "Nan") in
  cat ["Cuckatoo: "; cuckoo_diff; ", ProgPow: "; progpow_diff; ", RandomX: "; randomx_diff].

(** The [for (algo, difficulty) in &job.difficulty] loop of
    [send_miner_job], with its [?] on [get_parse_algorithm] and its
    [break]; [diff] starts at 1. *)
Fixpoint difficulty_loop (me : Algorithm) (l : list (string * N)) (diff : N) : Res N :=
  match l with
  | [] => Ok diff
  | (algo, d) :: rest =>
      match get_parse_algorithm algo with
      | Err e => Err e
      | Ok a => if algorithm_eqb me a then Ok d else difficulty_loop me rest diff
      end
  end.

(** The [algo_needed] token computed in [handle_request] and in the
    [getjobtemplate] arm of [handle_response]. *)
Definition algo_needed_token (algo : string) : string :=
  if String.eqb algo "cuckoo" then "cuckoo"
  else if String.eqb algo "randomx" then "randomx"
  else if String.eqb algo "progpow" then "progpow"
  else "".

(** The [algo_needed] display name computed in [send_miner_job]. *)
Definition algo_needed_name (algo : string) : string :=
  if String.eqb algo "cuckoo" then "Cuckatoo"
  else if String.eqb algo "randomx" then "RandomX"
  else if String.eqb algo "progpow" then "ProgPow"
  else "".

(** The display name written to [my_algorithm] by [run]. *)
Definition algorithm_display (a : Algorithm) : string :=
  match a with
  | Cuckoo => "Cuckatoo"
  | RandomX => "RandomX"
  | ProgPow => "ProgPow"
  end.

(** ** Connecting: [Stream::try_connect] *)

(** [str::split] on a one-character pattern. *)
Fixpoint split_acc (c : ascii) (s cur : string) : list string :=
  match s with
  | EmptyString => [cur]
  | String a s' =>
      if Ascii.eqb a c then cur :: split_acc c s' EmptyString
      else split_acc c s' (String.append cur (String a EmptyString))
  end.

Definition split_char (c : ascii) (s : string) : list string := split_acc c s EmptyString.

(** [a - b] on [usize]: a panic ([None]) with overflow checks (debug
    builds), wrap-around modulo 2^64 without them (release builds). *)
Definition usize_sub (overflow_checks : bool) (a b : N) : option N :=
  if N.leb b a then Some (a - b)%N
  else if overflow_checks then None
  else Some (a + 2 ^ 64 - b)%N.

(** [v[i]] on a [Vec]: a panic ([None]) out of range. *)
Definition vec_index {A} (v : list A) (i : N) : option A :=
  if N.ltb i (N.of_nat (length v)) then nth_error v (N.to_nat i) else None.

(** The SNI host computed in the TLS branch of [Stream::try_connect];
    [None] is a panic. *)
Definition sni_host (overflow_checks : bool) (server_url : string) : option string :=
  let url_port := split_char ":" server_url in
  match vec_index url_port 0 with
  | None => None
  | Some host =>
      let splitted_url := split_char "." host in
      let len := N.of_nat (length splitted_url) in
      match usize_sub overflow_checks len 2 with
      | None => None
      | Some i =>
          match vec_index splitted_url i with
          | None => None
          | Some a =>
              match usize_sub overflow_checks len 1 with
              | None => None
              | Some j =>
                  match vec_index splitted_url j with
                  | None => None
                  | Some b => Some (cat [a; "."; b])
                  end
              end
          end
      end
  end.

Inductive ConnectOutcome :=
| Connected (s : Stream)
| ConnectFailed (e : Error)
| Panicked.

(** What the operating system and the TLS library do during one connect:
    [tcp_error] is the error of [TcpStream::connect] if any, then whether
    [TlsConnector::new] succeeds, whether the handshake with a given SNI
    host succeeds and whether [set_nonblocking] succeeds. *)
Record ConnectEnv := {
  overflow_checks : bool;
  tcp_error : option string;
  connector_ok : bool;
  handshake_ok : string -> bool;
  nonblocking_ok : bool }.

(** The TLS handshake with SNI host [base_host], then the switch to
    non-blocking mode. *)
Definition tls_handshake (ce : ConnectEnv) (base_host : string) : ConnectOutcome :=
  if negb (handshake_ok ce base_host)
  then ConnectFailed (ConnectionError "Can't establish TLS connection")
  else if negb (nonblocking_ok ce)
  then ConnectFailed (ConnectionError "Can't switch to nonblocking mode")
  else Connected (TlsStream base_host).

(** [Stream::try_connect] (the [{:?}] detail of library errors is left
    out of the messages). *)
Definition stream_try_connect (ce : ConnectEnv) (server_url : string) (tls : option bool)
  : ConnectOutcome :=
  match tcp_error ce with
  | Some e => ConnectFailed (ConnectionError e)
  | None =>
      if match tls with Some true => true | _ => false end then
        if negb (connector_ok ce) then ConnectFailed (ConnectionError "Can't create TLS connector")
        else
          match sni_host (overflow_checks ce) server_url with
          | None => Panicked
          | Some base_host => tls_handshake ce base_host
          end
      else if negb (nonblocking_ok ce)
      then ConnectFailed (ConnectionError "Can't switch to nonblocking mode")
      else Connected PlainStream
  end.

(** What the environment supplies to one iteration of the loop: the clock
    at each [time::get_time()] call, the connect attempt, the result of
    [read_line], the messages waiting in [rx], and what other threads did
    meanwhile (a poisoned lock, a dropped miner receiver). *)
Record Env := {
  env_poisons : bool;
  env_drops_miner : bool;
  t_retry_check : Z;
  t_retry_set : Z;
  t_read_check : Z;
  t_read_set : Z;
  t_status_check : Z;
  t_status_set : Z;
  env_connect : ConnectEnv;
  env_read : ReadLine;
  env_pending : list ClientMessage }.

(** ** Concrete instances of the JSON layer

    A small serializer and the [serde_json::from_value] decoders derived
    for the three templates, used to run the controller on concrete
    frames. *)

Fixpoint sample_json_to_string (j : Json) : string :=
  match j with
  | JNull => "null"
  | JBool true => "true"
  | JBool false => "false"
  | JNum n => string_of_Z n
  | JStr s => debug_string s
  | JArr l =>
      cat ["["; String.concat "," (map sample_json_to_string l); "]"]
  | JObj l =>
      cat ["{"; String.concat ","
                  (map (fun '(k, v) => cat [debug_string k; ":"; sample_json_to_string v]) l);
           "}"]
  end.

Definition json_field (k : string) (j : Json) : option Json :=
  match j with
  | JObj l => option_map snd (find (fun '(k', _) => String.eqb k k') l)
  | _ => None
  end.

Definition json_u64 (j : option Json) : option N :=
  match j with
  | Some (JNum n) => if Z.leb 0 n then Some (Z.to_N n) else None
  | _ => None
  end.

Definition json_str (j : option Json) : option string :=
  match j with Some (JStr s) => Some s | _ => None end.

Fixpoint json_diff_list (l : list Json) : option (list (string * N)) :=
  match l with
  | [] => Some []
  | JArr [JStr k; JNum n] :: rest =>
      if Z.leb 0 n then
        option_map (fun r => (k, Z.to_N n) :: r) (json_diff_list rest)
      else None
  | _ => None
  end.

Definition json_diffs (j : option Json) : option (list (string * N)) :=
  match j with Some (JArr l) => json_diff_list l | _ => None end.

Definition sample_job_of_json (j : Json) : option JobTemplate :=
  match json_u64 (json_field "height" j), json_u64 (json_field "job_id" j),
        json_str (json_field "pre_pow" j), json_str (json_field "algorithm" j),
        json_diffs (json_field "difficulty" j), json_diffs (json_field "block_difficulty" j),
        json_field "epochs" j with
  | Some h, Some id, Some pp, Some a, Some d, Some bd, Some e =>
      Some {| height := h; job_id := id; pre_pow := pp; algorithm := a;
              difficulty := d; block_difficulty := bd; epochs := e |}
  | _, _, _, _, _, _, _ => None
  end.

Definition sample_epoch_of_json (j : Json) : option EpochTemplate :=
  option_map (fun e => {| seed_epochs := e |}) (json_field "epochs" j).

Definition sample_status_of_json (j : Json) : option WorkerStatus :=
  match json_str (json_field "id" j), json_u64 (json_field "height" j),
        json_u64 (json_field "difficulty" j), json_u64 (json_field "accepted" j),
        json_u64 (json_field "rejected" j), json_u64 (json_field "stale" j) with
  | Some i, Some h, Some d, Some a, Some r, Some st =>
      Some {| ws_id := i; ws_height := h; ws_difficulty := d; ws_accepted := a;
              ws_rejected := r; ws_stale := st |}
  | _, _, _, _, _, _ => None
  end.

Definition sample_debug_response (r : RpcResponse) : string :=
  cat ["RpcResponse { id: "; debug_string (res_id r); ", method: ";
       debug_string (res_method r); " }"].

(** The job of the spec's example frame, with a difficulty list that also
    names an algorithm the controller does not know. *)
Definition sample_job_params : Json :=
  JObj [("height", JNum 1234); ("job_id", JNum 42);
        ("difficulty", JArr [JArr [JStr "cuckatoo31"; JNum 5]; JArr [JStr "cuckoo"; JNum 1000]]);
        ("block_difficulty", JArr [JArr [JStr "cuckoo"; JNum 9999999]]);
        ("pre_pow", JStr "00ff"); ("algorithm", JStr "cuckoo");
        ("epochs", JArr [])].

(** The JSON form of a response, as [serde_json::to_string] renders it. *)
Definition response_json (r : RpcResponse) : Json :=
  JObj ([("id", JStr (res_id r)); ("jsonrpc", JStr (res_jsonrpc r));
         ("method", JStr (res_method r))]
        ++ match res_result r with Some v => [("result", v)] | None => [] end
        ++ match res_error r with
           | Some e => [("error", JObj [("code", JNum (code e)); ("message", JStr (message e))])]
           | None => []
           end)%list.

Definition frame_of_response (r : RpcResponse) : string :=
  sample_json_to_string (response_json r).

(** The server refusing a login. *)
Definition login_error_response : RpcResponse :=
  {| res_id := "0"; res_jsonrpc := "2.0"; res_method := "login"; res_result := None;
     res_error := Some {| code := -32500; message := "login required" |} |}.

(** The server answering a keepalive. *)
Definition keepalive_ok_response : RpcResponse :=
  {| res_id := "0"; res_jsonrpc := "2.0"; res_method := "keepalive";
     res_result := Some (JStr "ok"); res_error := None |}.

(** [serde_json]'s two-phase reading of the frames of these two
    responses; any other line is taken as not JSON. *)
Definition sample_classify (m : string) : Frame :=
  match find (fun r => String.eqb (frame_of_response r) m)
             [login_error_response; keepalive_ok_response] with
  | Some r => FResponse (Some r)
  | None => FNotJson
  end.

(** Stats as a reader would see them before the first connection. *)
Definition sample_stats : Stats :=
  {| client_stats := {| connected := false; connection_status := "Connection Status: Starting";
                        my_algorithm := ""; algorithm_needed := "";
                        current_network_difficulty := ""; last_message_sent := "";
                        last_message_received := "" |};
     solution_stats := {| num_shares_accepted := 0; num_rejected := 0; num_staled := 0;
                          num_blocks_found := 0 |} |}.

(** A Cuckoo controller connected over plain TCP, with a healthy lock and
    a live miner. *)
Definition sample_state : St :=
  {| ctl := {| ctl_algorithm := Cuckoo; server_url := "pool.example.com:3333";
               server_login := Some "alice"; server_password := None;
               server_tls_enabled := None; stream := Some PlainStream;
               last_request_id := 0 |};
     world := {| stats := sample_stats; poisoned := false; miner_alive := true;
                 miner_rx := []; wire := []; events := [] |} |}.

(** The job of scenario S1: height 100, algorithm cuckoo, difficulty
    [[["cuckoo",7]]]. *)
Definition s1_job_params : Json :=
  JObj [("height", JNum 100); ("job_id", JNum 42);
        ("difficulty", JArr [JArr [JStr "cuckoo"; JNum 7]]);
        ("block_difficulty", JArr [JArr [JStr "cuckoo"; JNum 9999999]]);
        ("pre_pow", JStr "00ff"); ("algorithm", JStr "cuckoo");
        ("epochs", JArr [])].

Definition s1_job : JobTemplate :=
  {| height := 100; job_id := 42; pre_pow := "00ff"; algorithm := "cuckoo";
     difficulty := [("cuckoo", 7%N)]; block_difficulty := [("cuckoo", 9999999%N)];
     epochs := JArr [] |}.

(** The server's answer to [getjobtemplate] in scenario S1. *)
Definition s1_job_response : RpcResponse :=
  {| res_id := "0"; res_jsonrpc := "2.0"; res_method := "getjobtemplate";
     res_result := Some s1_job_params; res_error := None |}.

(** A [job] request whose difficulty list names ["cuckatoo31"] first. *)
Definition job_request_unknown_name : RpcRequest :=
  {| req_id := "0"; req_jsonrpc := "2.0"; req_method := "job";
     req_params := Some sample_job_params |}.

(** A request with a method other than [job]. *)
Definition status_request : RpcRequest :=
  {| req_id := "0"; req_jsonrpc := "2.0"; req_method := "status"; req_params := None |}.

(** A share answer that reports a found block. *)
Definition blockfound_response : RpcResponse :=
  {| res_id := "0"; res_jsonrpc := "2.0"; res_method := "submit";
     res_result := Some (JStr "blockfound"); res_error := None |}.

(** A share answer of scenario S4. *)
Definition too_late_response : RpcResponse :=
  {| res_id := "0"; res_jsonrpc := "2.0"; res_method := "submit"; res_result := None;
     res_error := Some {| code := -1; message := "share is too late" |} |}.

(** A connect attempt where everything succeeds. *)
Definition sample_connect_env : ConnectEnv :=
  {| overflow_checks := true; tcp_error := None; connector_ok := true;
     handshake_ok := fun _ => true; nonblocking_ok := true |}.

(** An iteration at clock [t] whose [read_line] gives [r]. *)
Definition env_at (t : Z) (r : ReadLine) : Env :=
  {| env_poisons := false; env_drops_miner := false;
     t_retry_check := t; t_retry_set := t; t_read_check := t; t_read_set := t;
     t_status_check := t; t_status_set := t; env_connect := sample_connect_env;
     env_read := r; env_pending := [] |}.

(** Connect; read the refused login; read a keepalive answer. *)
Definition login_trace_envs : list Env :=
  [env_at 1 (ReadErr WouldBlock);
   env_at 2 (ReadOk (frame_of_response login_error_response));
   env_at 3 (ReadOk (frame_of_response keepalive_ok_response))].

(** A [job] request for RandomX, sent to a Cuckoo controller. *)
Definition other_algorithm_job_params : Json :=
  JObj [("height", JNum 7); ("job_id", JNum 3);
        ("difficulty", JArr [JArr [JStr "randomx"; JNum 11]]);
        ("block_difficulty", JArr []);
        ("pre_pow", JStr "aa"); ("algorithm", JStr "randomx");
        ("epochs", JArr [])].

Definition other_algorithm_request : RpcRequest :=
  {| req_id := "0"; req_jsonrpc := "2.0"; req_method := "job";
     req_params := Some other_algorithm_job_params |}.

(** The server's answer to [seed]. *)
Definition seed_response : RpcResponse :=
  {| res_id := "0"; res_jsonrpc := "2.0"; res_method := "seed";
     res_result := Some (JObj [("epochs", JArr [JNum 1])]); res_error := None |}.

(** The server's answer to [status]. *)
Definition status_response : RpcResponse :=
  {| res_id := "0"; res_jsonrpc := "2.0"; res_method := "status";
     res_result := Some (JObj [("id", JStr "w1"); ("height", JNum 100);
                               ("difficulty", JNum 7); ("accepted", JNum 3);
                               ("rejected", JNum 1); ("stale", JNum 0)]);
     res_error := None |}.

(** A share found by the miner. *)
Definition sample_solution : Solution :=
  {| sol_id := 42; sol_nonce := 77; sol_params := JArr [JNum 1; JNum 2] |}.

(** [sample_state] after a thread panicked while holding the stats lock. *)
Definition poisoned_state : St :=
  {| ctl := ctl sample_state;
     world := {| stats := sample_stats; poisoned := true; miner_alive := true;
                 miner_rx := []; wire := []; events := [] |} |}.

(** [sample_state] after the stream was dropped. *)
Definition offline_state : St :=
  {| ctl := {| ctl_algorithm := Cuckoo; server_url := "pool.example.com:3333";
               server_login := Some "alice"; server_password := None;
               server_tls_enabled := None; stream := None;
               last_request_id := 0 |};
     world := world sample_state |}.

(** ** The controller's operations

    The JSON layer is left abstract: [json_to_string] is
    [serde_json::to_string] on a value, the [*_of_json] functions are
    [serde_json::from_value] at the three types ([None]: decode error),
    [debug_response] is [{:?}] on an [RpcResponse], and
    [cargo_pkg_version] is [env!("CARGO_PKG_VERSION")].  Serialising a
    request or the submit parameters cannot fail (derived [Serialize],
    string keys), so those [?] are not modelled as error paths. *)

Section ControllerOps.

Variable json_to_string : Json -> string.
Variable job_of_json : Json -> option JobTemplate.
Variable epoch_of_json : Json -> option EpochTemplate.
Variable status_of_json : Json -> option WorkerStatus.
Variable debug_response : RpcResponse -> string.
Variable cargo_pkg_version : string.

Definition from_value {A} (dec : Json -> option A) (v : Json) : M A :=
  match dec v with
  | Some a => ret a
  | None => throw (JsonError "Failed to parse JSON")
  end.

(** [Controller::send_message]: the message, then ["\n"], then a flush;
    the results of the three calls are dropped. *)
Definition send_message (req : RpcRequest) : M unit :=
  c <- get_ctl ;;
  match stream c with
  | None => throw (ConnectionError "No server connection")
  | Some _ =>
      stream_write_request req ;;;
      log_event (EvStreamWrite (String "010" EmptyString)) ;;;
      log_event EvStreamFlush ;;;
      ret tt
  end.

(** [Controller::send_message_get_job_template]. *)
Definition send_message_get_job_template : M unit :=
  c <- get_ctl ;;
  let req := {| req_id := string_of_N (last_request_id c); req_jsonrpc := "2.0";
                req_method := "getjobtemplate";
                req_params := Some (JObj [("algorithm", JStr (parse_algorithm (ctl_algorithm c)))]) |} in
  scoped_write (modify_client (set_last_message_sent "Last Message Sent: Get New Job")) ;;;
  send_message req.

(** [Controller::send_login]. *)
Definition send_login : M unit :=
  c <- get_ctl ;;
  let login_str := match server_login c with None => "" | Some l => l end in
  if String.eqb login_str "" then ret tt
  else
    let password_str := match server_password c with None => "" | Some p => p end in
    let params := JObj [("login", JStr login_str); ("pass", JStr password_str);
                        ("agent", JStr (cat ["epic-miner/v"; cargo_pkg_version]))] in
    let req := {| req_id := string_of_N (last_request_id c); req_jsonrpc := "2.0";
                  req_method := "login"; req_params := Some params |} in
    scoped_write (modify_client (set_last_message_sent "Last Message Sent: Login")) ;;;
    send_message req.

(** [Controller::send_message_get_status]. *)
Definition send_message_get_status : M unit :=
  c <- get_ctl ;;
  send_message {| req_id := string_of_N (last_request_id c); req_jsonrpc := "2.0";
                  req_method := "status"; req_params := None |}.

(** [Controller::send_message_submit]; the parameters go through
    [to_string] and back through [from_str], which gives the same value. *)
Definition send_message_submit (h : N) (sol : Solution) : M unit :=
  c <- get_ctl ;;
  let params := JObj [("height", JNum (Z.of_N h)); ("job_id", JNum (Z.of_N (sol_id sol)));
                      ("nonce", JNum (Z.of_N (sol_nonce sol))); ("pow", sol_params sol)] in
  let req := {| req_id := string_of_N (last_request_id c); req_jsonrpc := "2.0";
                req_method := "submit"; req_params := Some params |} in
  scoped_write (modify_client (set_last_message_sent
     (cat ["Last Message Sent: Found share for height: "; string_of_N h;
           " - nonce: "; string_of_N (sol_nonce sol)]))) ;;;
  send_message req.

(** [Controller::send_miner_job].  The write guard [stats] taken near the
    end lives to the end of the function, so it is dropped after the final
    [miner_tx.send]. *)
Definition send_miner_job (job : JobTemplate) : M unit :=
  miner_send (ReceivedSeed (epochs job)) ;;;
  c <- get_ctl ;;
  diff <- lift (difficulty_loop (ctl_algorithm c) (difficulty job) 1) ;;
  let algo_needed := algo_needed_name (algorithm job) in
  let job_diff := parse_difficulty (difficulty job) in
  let current_network_diff := parse_difficulty (block_difficulty job) in
  let miner_message := ReceivedJob (height job) (job_id job) diff (pre_pow job) in
  scoped_write (
    modify_client (set_last_message_received
      (cat ["Last Message Received: Start Job for Height: "; string_of_N (height job);
            ", Share Difficulty: "; job_diff])) ;;;
    modify_client (set_algorithm_needed algo_needed) ;;;
    modify_client (set_current_network_difficulty current_network_diff) ;;;
    miner_send miner_message).

(** [Controller::send_miner_seed]. *)
Definition send_miner_seed (job : EpochTemplate) : M unit :=
  miner_send (ReceivedSeed (seed_epochs job)).

(** [Controller::send_miner_stop]. *)
Definition send_miner_stop : M unit := miner_send StopJob.

(** The algorithm test shared by the [job] request and the
    [getjobtemplate] response. *)
Definition forward_job (job : JobTemplate) : M unit :=
  c <- get_ctl ;;
  if String.eqb (parse_algorithm (ctl_algorithm c)) (algo_needed_token (algorithm job))
  then send_miner_job job
  else send_miner_stop.

(** [Controller::handle_request]. *)
Definition handle_request (req : RpcRequest) : M unit :=
  if String.eqb (req_method req) "job" then
    match req_params req with
    | None => throw (RequestError "No params in job request")
    | Some params =>
        job <- from_value job_of_json params ;;
        forward_job job
    end
  else throw (RequestError "Unknonw method").

Definition error_or_invalid (res : RpcResponse) : RpcError :=
  match res_error res with Some e => e | None => invlalid_error_response end.

Definition set_received (msg : string) : M unit :=
  modify_client (set_last_message_received msg).

(** [Controller::handle_response]. *)
Definition handle_response (res : RpcResponse) : M unit :=
  let m := res_method res in
  if String.eqb m "status" then
    match res_result res with
    | Some result =>
        st <- from_value status_of_json result ;;
        scoped_write (set_received
          (cat ["Last Message Received: Accepted: "; string_of_N (ws_accepted st);
                ", Rejected: "; string_of_N (ws_rejected st);
                ", Stale: "; string_of_N (ws_stale st)])) ;;;
        ret tt
    | None =>
        let err := error_or_invalid res in
        scoped_write (set_received
          (cat ["Last Message Received: Failed to get status: "; debug_rpc_error err])) ;;;
        ret tt
    end
  else if String.eqb m "getjobtemplate" then
    match res_result res with
    | Some result =>
        job <- from_value job_of_json result ;;
        let job_diff := parse_difficulty (block_difficulty job) in
        scoped_write (set_received
          (cat ["Last Message Received: Got job for block "; string_of_N (height job);
                " at difficulty "; debug_string job_diff])) ;;;
        forward_job job
    | None =>
        let err := error_or_invalid res in
        scoped_write (set_received
          (cat ["Last Message Received: Failed to get job template: "; debug_rpc_error err])) ;;;
        ret tt
    end
  else if String.eqb m "submit" then
    match res_result res with
    | Some result =>
        scoped_write (
          set_received "Last Message Received: Share Accepted!!" ;;;
          modify_solution incr_shares_accepted ;;;
          let result := json_to_string result in
          if contains result "blockfound" then
            set_received "Last Message Received: Block Found!!" ;;;
            modify_solution incr_blocks_found
          else ret tt) ;;;
        ret tt
    | None =>
        let err := error_or_invalid res in
        scoped_write (
          set_received (cat ["Last Message Received: Failed to submit a solution: ";
                             debug_string (message err)]) ;;;
          if contains (message err) "too late"
          then modify_solution incr_staled
          else modify_solution incr_rejected) ;;;
        ret tt
    end
  else if String.eqb m "keepalive" then
    match res_result res with
    | Some _ => ret tt
    | None =>
        let err := error_or_invalid res in
        scoped_write (set_received
          (cat ["Last Message Received: Failed to request keepalive: "; debug_rpc_error err])) ;;;
        ret tt
    end
  else if String.eqb m "login" then
    match res_result res with
    | Some _ => ret tt
    | None =>
        let err := error_or_invalid res in
        scoped_write (
          set_received (cat ["Last Message Received: Failed to log in: "; debug_rpc_error err]) ;;;
          modify_client (set_connection_status "Connection Status: Server requires login") ;;;
          modify_client (set_connected false)) ;;;
        ret tt
    end
  else if String.eqb m "seed" then
    match res_result res with
    | Some result =>
        job <- from_value epoch_of_json result ;;
        send_miner_seed job
    | None =>
        let err := error_or_invalid res in
        scoped_write (set_received
          (cat ["Last Message Received: Failed to get seed template: "; debug_rpc_error err])) ;;;
        ret tt
    end
  else
    scoped_write (set_received
      (cat ["Last Message Received: Unknown Response: "; debug_response res])) ;;;
    ret tt.

(** [Controller::read_message], given what [read_line] returns. *)
Definition read_message (r : ReadLine) : M (option string) :=
  c <- get_ctl ;;
  match stream c with
  | None => throw (ConnectionError "broken pipe")
  | Some _ =>
      log_event EvStreamRead ;;;
      match r with
      | ReadOk line =>
          if String.eqb line "" then throw (ConnectionError "broken pipe")
          else ret (Some line)
      | ReadErr k =>
          if error_kind_eqb k BrokenPipe then throw (ConnectionError "broken pipe")
          else if error_kind_eqb k WouldBlock then ret None
          else throw (ConnectionError "broken pipe")
      end
  end.

(** ** The run loop *)

Variable classify : string -> Frame.

(** [Controller::new]. *)
Definition controller_new (a : Algorithm) (url : string) (login password : option string)
  (tls : option bool) : Controller :=
  {| ctl_algorithm := a; server_url := url; server_login := login;
     server_password := password; server_tls_enabled := tls; stream := None;
     last_request_id := 0 |}.

(** The local state of [Controller::run]. *)
Record LoopSt := {
  ls_st : St;
  next_server_read : Z;
  next_status_request : Z;
  next_server_retry : Z;
  was_disconnected : bool }.

Inductive Step := Next (ls : LoopSt) | Returned (ls : LoopSt) | Panic.

Definition exec {A} (c : M A) (s : St) : St := snd (c s).

Definition apply_env (env : Env) (s : St) : St :=
  let w := world s in
  set_world {| stats := stats w; poisoned := poisoned w || env_poisons env;
               miner_alive := miner_alive w && negb (env_drops_miner env);
               miner_rx := miner_rx w; wire := wire w; events := events w |} s.

Definition mk_loop (s : St) (nread nstatus nretry : Z) (wd : bool) : LoopSt :=
  {| ls_st := s; next_server_read := nread; next_status_request := nstatus;
     next_server_retry := nretry; was_disconnected := wd |}.

(** The [while let Some(message) = self.rx.try_iter().next()] drain;
    [true] when [Shutdown] made [run] return. *)
Fixpoint drain (msgs : list ClientMessage) (s : St) : bool * St :=
  match msgs with
  | [] => (false, s)
  | FoundSolution h sol :: rest =>
      let (r, s1) := send_message_submit h sol s in
      let s2 := match r with Ok _ => s1 | Err _ => exec (set_stream None) s1 end in
      drain rest s2
  | Shutdown :: _ => (true, s)
  end.

(** The bottom of the loop body: drain [rx], then sleep. *)
Definition finish (env : Env) (s : St) (nread nstatus nretry : Z) (wd : bool) : Step :=
  let (stop, s') := drain (env_pending env) s in
  if stop then Returned (mk_loop s' nread nstatus nretry wd)
  else Next (mk_loop s' nread nstatus nretry wd).

(** The block run under [stats.write().unwrap()] when a frame arrives. *)
Definition mark_received (a : Algorithm) : M unit :=
  scoped_write (modify_client (set_my_algorithm (algorithm_display a)) ;;;
                modify_client (set_connected true)).

(** The status request and the drain, after the read step. *)
Definition after_read (env : Env) (s : St) (nread nstatus nretry : Z) (wd : bool) : Step :=
  if Z.gtb (t_status_check env) nstatus then
    finish env (exec (ignore send_message_get_status) s) nread (t_status_set env + 30)%Z nretry wd
  else finish env s nread nstatus nretry wd.

(** One iteration of the [loop] in [Controller::run]; [Next] also covers
    the [continue]s. *)
Definition iteration (env : Env) (ls : LoopSt) : Step :=
  let s0 := apply_env env (ls_st ls) in
  let nread := next_server_read ls in
  let nstatus := next_status_request ls in
  let nretry := next_server_retry ls in
  let c := ctl s0 in
  match stream c with
  | None =>
      let s1 := if negb (was_disconnected ls) then exec (ignore send_miner_stop) s0 else s0 in
      if Z.gtb (t_retry_check env) nretry then
        let s2 := exec (set_stream (Some NoStream)) s1 in
        match stream_try_connect (env_connect env) (server_url c) (server_tls_enabled c) with
        | Panicked => Panic
        | ConnectFailed _ =>
            if poisoned (world s2) then Panic else
            let status := cat ["Connection Status: Can't establish server connection to ";
                               server_url c; ". Will retry every 5 seconds"] in
            let s3 := exec (scoped_write (modify_client (set_connection_status status) ;;;
                                          modify_client (set_connected false) ;;;
                                          set_stream None)) s2 in
            Next (mk_loop s3 nread nstatus (t_retry_set env + 5)%Z true)
        | Connected strm =>
            let s3 := exec (set_stream (Some strm)) s2 in
            if poisoned (world s3) then Panic else
            let status := cat ["Connection Status: Connected to Epic server at ";
                               server_url c; "."] in
            let s4 := exec (scoped_write (modify_client (set_connection_status status))) s3 in
            finish env s4 nread nstatus (t_retry_set env + 5)%Z true
        end
      else finish env s1 nread nstatus nretry true
  | Some _ =>
      let s1 := if was_disconnected ls
                then exec (ignore send_login ;;; ignore send_message_get_job_template) s0
                else s0 in
      if Z.gtb (t_read_check env) nread then
        match read_message (env_read env) s1 with
        | (Ok (Some m), s2) =>
            if poisoned (world s2) then Panic else
            let s3 := exec (mark_received (ctl_algorithm c)) s2 in
            match classify m with
            | FNotJson => after_read env s3 (t_read_set env + 1)%Z nstatus nretry false
            | FRequest None | FResponse None => Next (mk_loop s3 nread nstatus nretry false)
            | FRequest (Some r) =>
                Next (mk_loop (exec (handle_request r) s3) nread nstatus nretry false)
            | FResponse (Some r) =>
                Next (mk_loop (exec (handle_response r) s3) nread nstatus nretry false)
            end
        | (Ok None, s2) => after_read env s2 (t_read_set env + 1)%Z nstatus nretry false
        | (Err _, s2) => Next (mk_loop (exec (set_stream None) s2) nread nstatus nretry false)
        end
      else after_read env s1 nread nstatus nretry false
  end.

(** The world when [run] starts: the shared stats as they are, a healthy
    lock, a live miner, nothing sent yet. *)
Definition init_world (st0 : Stats) : World :=
  {| stats := st0; poisoned := false; miner_alive := true; miner_rx := [];
     wire := []; events := [] |}.

(** The state after the set-up lines of [run], at clock [t0]. *)
Definition run_init (c : Controller) (st0 : Stats) (t0 : Z) : LoopSt :=
  mk_loop {| ctl := c; world := init_world st0 |} (t0 + 1)%Z (t0 + 30)%Z t0 true.

(** ** Observations used in the statements *)

Definition cstats (s : St) : ClientStats := client_stats (stats (world s)).
Definition sstats (s : St) : SolutionStats := solution_stats (stats (world s)).

(** The outcomes of [read_message] as the spec lists them. *)
Definition read_message_expected (o : option Stream) (r : ReadLine) : Res (option string) :=
  match o with
  | None => Err (ConnectionError "broken pipe")
  | Some _ =>
      match r with
      | ReadErr WouldBlock => Ok None
      | ReadErr _ => Err (ConnectionError "broken pipe")
      | ReadOk EmptyString => Err (ConnectionError "broken pipe")
      | ReadOk line => Ok (Some line)
      end
  end.

(** The text of [s] before the first [c]. *)
Fixpoint take_until (c : ascii) (s : string) : string :=
  match s with
  | EmptyString => EmptyString
  | String a s' => if Ascii.eqb a c then EmptyString else String a (take_until c s')
  end.

(** The host portion of an endpoint [host:port]. *)
Definition host_portion (url : string) : string := take_until ":" url.

(** Whether a trace has a stream I/O call or a miner-channel send while
    the stats write lock is held. *)
Fixpoint io_under_lock_from (held : bool) (l : list Event) : bool :=
  match l with
  | [] => false
  | EvLockAcquire :: rest => io_under_lock_from true rest
  | EvLockRelease :: rest => io_under_lock_from false rest
  | (EvStreamWrite _ | EvStreamFlush | EvStreamRead | EvMinerSend _) :: rest =>
      held || io_under_lock_from held rest
  end.

Definition io_under_lock (l : list Event) : bool := io_under_lock_from false l.

(** The invariant of the request counter: still 0, and every request on
    the wire stamped ["0"]. *)
Definition ids_zero (s : St) : Prop :=
  last_request_id (ctl s) = 0%N /\ Forall (fun r => req_id r = "0") (wire (world s)).

Definition preserves {A} (P : St -> Prop) (c : M A) : Prop :=
  forall s, P s -> P (snd (c s)).


(** The states [run] can reach from a freshly constructed controller. *)
Inductive reachable : LoopSt -> Prop :=
| reach_init a url login password tls st0 t0 :
    reachable (run_init (controller_new a url login password tls) st0 t0)
| reach_step ls env ls' :
    reachable ls -> iteration env ls = Next ls' -> reachable ls'.

(** Several iterations in a row, as long as the loop goes on. *)
Fixpoint run_steps (envs : list Env) (ls : LoopSt) : option LoopSt :=
  match envs with
  | [] => Some ls
  | env :: rest =>
      match iteration env ls with
      | Next ls' => run_steps rest ls'
      | _ => None
      end
  end.

(** ** Observations used by the further properties *)

(** Whether [get_parse_algorithm] accepts a name. *)
Definition is_known (a : string) : bool :=
  match get_parse_algorithm a with Ok _ => true | Err _ => false end.

(** The value [parse_difficulty] prints for [name]: the last entry of the
    list with that name, ["Nan"] when there is none. *)
Definition last_diff (name : string) (l : list (string * N)) : string :=
  fold_left (fun acc '(a, d) => if String.eqb a name then string_of_N d else acc) l "Nan".

(** The first entry of a difficulty list that either names the algorithm
    [me] or is a name [get_parse_algorithm] refuses. *)
Definition first_stop (me : Algorithm) (l : list (string * N)) : option (string * N) :=
  find (fun '(a, _) => String.eqb a (parse_algorithm me) || negb (is_known a)) l.

(** A relation between the state before and after a computation. *)
Definition rel_step (R : St -> St -> Prop) {A} (c : M A) : Prop :=
  forall s, R s (snd (c s)).

Definition same_ctl (s s' : St) : Prop := ctl s' = ctl s.
Definition same_wire (s s' : St) : Prop := wire (world s') = wire (world s).
Definition same_rx (s s' : St) : Prop := miner_rx (world s') = miner_rx (world s).
Definition same_solution (s s' : St) : Prop := sstats s' = sstats s.

(** The configuration of a controller: everything but its stream. *)
Definition config_of (c : Controller)
  : Algorithm * string * option string * option string * option bool * N :=
  (ctl_algorithm c, server_url c, server_login c, server_password c,
   server_tls_enabled c, last_request_id c).

Definition same_config (s s' : St) : Prop := config_of (ctl s') = config_of (ctl s).

Definition counters_le (a b : SolutionStats) : Prop :=
  (num_shares_accepted a <= num_shares_accepted b /\ num_rejected a <= num_rejected b /\
   num_staled a <= num_staled b /\ num_blocks_found a <= num_blocks_found b)%N.

Definition counters_grow (s s' : St) : Prop := counters_le (sstats s) (sstats s').

Definition tls_on (o : option bool) : bool :=
  match o with Some true => true | _ => false end.

(** The stream a controller holds is a real one ([Stream::new()] alone
    has neither a TCP nor a TLS stream, and its [Read] and [Write]
    unwrap [None]), and it is a TLS stream exactly when TLS is
    configured. *)
Definition stream_ok (c : Controller) : bool :=
  match stream c with
  | None => true
  | Some NoStream => false
  | Some PlainStream => negb (tls_on (server_tls_enabled c))
  | Some (TlsStream _) => tls_on (server_tls_enabled c)
  end.

Definition stream_ok_rel (s s' : St) : Prop :=
  stream_ok (ctl s) = true -> stream_ok (ctl s') = true.

(** The request [send_message_submit] writes for a share. *)
Definition submit_request (id : N) (h : N) (sol : Solution) : RpcRequest :=
  {| req_id := string_of_N id; req_jsonrpc := "2.0"; req_method := "submit";
     req_params := Some (JObj [("height", JNum (Z.of_N h)); ("job_id", JNum (Z.of_N (sol_id sol)));
                               ("nonce", JNum (Z.of_N (sol_nonce sol))); ("pow", sol_params sol)]) |}.

(** The methods of the requests written when a connection is (re)made:
    [login] when a non-empty login is configured, then [getjobtemplate]. *)
Definition handshake_methods (c : Controller) : list string :=
  (match server_login c with
   | Some l => if String.eqb l "" then [] else ["login"]
   | None => []
   end ++ ["getjobtemplate"])%list.

(** ** Theorems *)

(** C2: a [submit] response carrying a [result] adds exactly one accepted
    share, adds one found block exactly when the serialized result
    contains ["blockfound"], and leaves the rejected and stale counters
    alone. *)
Theorem handle_response_submit_result (res : RpcResponse) (r : Json) (s : St)
  (Hm : res_method res = "submit") (Hr : res_result res = Some r)
  (Hp : poisoned (world s) = false) :
  let (out, s') := handle_response res s in
  out = Ok tt /\
  num_shares_accepted (sstats s') = (num_shares_accepted (sstats s) + 1)%N /\
  num_blocks_found (sstats s') =
    (num_blocks_found (sstats s) + if contains (json_to_string r) "blockfound" then 1 else 0)%N /\
  num_rejected (sstats s') = num_rejected (sstats s) /\
  num_staled (sstats s') = num_staled (sstats s).
Proof.
  destruct s as [c [st p al rx wr ev]]; simpl in Hp; subst p.
  unfold handle_response; rewrite Hm; simpl; rewrite Hr.
  destruct (contains (json_to_string r) "blockfound"); simpl;
    unfold sstats; simpl; repeat split; lia.
Qed.

(** C3: a [submit] response without a [result] (its [error], or the
    synthetic invalid-error value when there is none) adds one stale share
    when the message contains ["too late"] and one rejected share
    otherwise, never both, and leaves the accepted and block counters
    alone. *)
Theorem handle_response_submit_error (res : RpcResponse) (s : St)
  (Hm : res_method res = "submit") (Hr : res_result res = None)
  (Hp : poisoned (world s) = false) :
  let msg := message (error_or_invalid res) in
  let (out, s') := handle_response res s in
  out = Ok tt /\
  num_staled (sstats s') = (num_staled (sstats s) + if contains msg "too late" then 1 else 0)%N /\
  num_rejected (sstats s') = (num_rejected (sstats s) + if contains msg "too late" then 0 else 1)%N /\
  num_shares_accepted (sstats s') = num_shares_accepted (sstats s) /\
  num_blocks_found (sstats s') = num_blocks_found (sstats s) /\
  (res_error res = None -> num_rejected (sstats s') = (num_rejected (sstats s) + 1)%N).
Proof.
  destruct s as [c [st p al rx wr ev]]; simpl in Hp; subst p.
  unfold handle_response; rewrite Hm; simpl; rewrite Hr.
  unfold error_or_invalid.
  unfold sstats; destruct (res_error res) as [e|] eqn:He; simpl.
  - destruct (contains (message e) "too late"); simpl; repeat split; try lia; discriminate.
  - repeat split; lia.
Qed.

(** C7: [read_message] gives [Ok None] on [WouldBlock], the connection
    error ["broken pipe"] with no stream, on an empty line, on
    [BrokenPipe] and on any other I/O error, and the line otherwise. *)
Theorem read_message_outcomes (r : ReadLine) (s : St) :
  fst (read_message r s) = read_message_expected (stream (ctl s)) r.
Proof.
  unfold read_message, read_message_expected, bind, get_ctl; simpl.
  destruct (stream (ctl s)) as [strm|]; [|reflexivity].
  unfold log_event; simpl.
  destruct r as [line|k].
  - destruct line; reflexivity.
  - destruct k; reflexivity.
Qed.

(** *** Splitting endpoints *)

Lemma append_empty_r (s : string) : String.append s EmptyString = s.
Proof. induction s as [|a s IH]; simpl; [reflexivity | now rewrite IH]. Qed.

Lemma append_snoc (cur t : string) (a : ascii) :
  String.append (String.append cur (String a EmptyString)) t = String.append cur (String a t).
Proof. induction cur as [|b cur IH]; simpl; [reflexivity | now rewrite IH]. Qed.

Lemma split_acc_head (c : ascii) (s cur : string) :
  exists rest, split_acc c s cur = String.append cur (take_until c s) :: rest.
Proof.
  revert cur; induction s as [|a s IH]; intros cur; simpl.
  - exists []; now rewrite append_empty_r.
  - destruct (Ascii.eqb a c).
    + exists (split_acc c s EmptyString); now rewrite append_empty_r.
    + destruct (IH (String.append cur (String a EmptyString))) as [rest Hr].
      exists rest; now rewrite Hr, append_snoc.
Qed.

Lemma split_acc_no_sep (c : ascii) (s cur : string) :
  contains s (String c EmptyString) = false ->
  split_acc c s cur = [String.append cur s].
Proof.
  revert cur; induction s as [|a s IH]; intros cur H; simpl.
  - now rewrite append_empty_r.
  - simpl in H.
    destruct (Ascii.eqb_spec a c) as [->|Hne].
    + destruct (ascii_dec c c) as [_|n]; [|contradiction].
      destruct s; simpl in H; discriminate.
    + destruct (ascii_dec c a) as [e|_]; [congruence|].
      simpl in H. rewrite (IH _ H). now rewrite append_snoc.
Qed.

Lemma split_char_first (c : ascii) (s : string) :
  vec_index (split_char c s) 0 = Some (take_until c s).
Proof.
  unfold split_char. destruct (split_acc_head c s EmptyString) as [rest ->].
  reflexivity.
Qed.

Lemma usize_sub_labels (oc : bool) {A} (pre : list A) (a b : A) (k : N) :
  (k <= 2)%N ->
  usize_sub oc (N.of_nat (length (pre ++ [a; b]))) k = Some (N.of_nat (length pre) + (2 - k))%N.
Proof.
  intros Hk. unfold usize_sub. rewrite length_app. change (length [a; b]) with 2.
  rewrite (proj2 (N.leb_le k (N.of_nat (length pre + 2)))) by lia.
  f_equal; lia.
Qed.

Lemma vec_index_labels {A} (pre : list A) (a b : A) :
  vec_index (pre ++ [a; b]) (N.of_nat (length pre) + (2 - 2)) = Some a /\
  vec_index (pre ++ [a; b]) (N.of_nat (length pre) + (2 - 1)) = Some b.
Proof.
  unfold vec_index; rewrite length_app; change (length [a; b]) with 2.
  split.
  - replace (N.ltb _ _) with true by (symmetry; apply N.ltb_lt; lia).
    replace (N.to_nat (N.of_nat (length pre) + (2 - 2))) with (length pre) by lia.
    rewrite nth_error_app2 by lia. now rewrite Nat.sub_diag.
  - replace (N.ltb _ _) with true by (symmetry; apply N.ltb_lt; lia).
    replace (N.to_nat (N.of_nat (length pre) + (2 - 1))) with (length pre + 1) by lia.
    rewrite nth_error_app2 by lia. now replace (length pre + 1 - length pre) with 1 by lia.
Qed.

(** C9: with TLS on, once the TCP connection and the TLS connector exist,
    [Stream::try_connect] hands the last two dot-separated labels of the
    host portion, joined by ".", to the handshake; when the host portion
    has no "." it panics (an underflow of [len - 2] with overflow checks,
    an out-of-range index without them) instead of returning an error. *)
Theorem try_connect_tls_sni (ce : ConnectEnv) (url : string)
  (Htcp : tcp_error ce = None) (Hconn : connector_ok ce = true) :
  (forall pre a b, split_char "." (host_portion url) = (pre ++ [a; b])%list ->
     stream_try_connect ce url (Some true) = tls_handshake ce (cat [a; "."; b])) /\
  (contains (host_portion url) "." = false ->
     stream_try_connect ce url (Some true) = Panicked).
Proof.
  unfold stream_try_connect; rewrite Htcp, Hconn; simpl.
  unfold sni_host; rewrite split_char_first; fold (host_portion url).
  split.
  - intros pre a b Hs. rewrite Hs.
    rewrite (usize_sub_labels _ pre a b 2) by lia.
    destruct (vec_index_labels pre a b) as [Ha Hb].
    rewrite Ha.
    rewrite (usize_sub_labels _ pre a b 1) by lia.
    now rewrite Hb.
  - intros Hno. unfold split_char. rewrite split_acc_no_sep by exact Hno.
    destruct (overflow_checks ce); reflexivity.
Qed.

(** *** The request counter *)

Lemma pres_bind {A B} (c : M A) (k : A -> M B) :
  preserves ids_zero c -> (forall a, preserves ids_zero (k a)) ->
  preserves ids_zero (bind c k).
Proof.
  intros Hc Hk s Hs. unfold bind. specialize (Hc s Hs).
  destruct (c s) as [[a|e] s']; simpl in *; [apply Hk|]; exact Hc.
Qed.

Lemma pres_bind_get {B} (k : Controller -> M B) :
  (forall s, ids_zero s -> ids_zero (snd (k (ctl s) s))) ->
  preserves ids_zero (bind get_ctl k).
Proof. intros Hk s Hs. exact (Hk s Hs). Qed.

Lemma pres_ret {A} (a : A) : preserves ids_zero (ret a).
Proof. intros s Hs; exact Hs. Qed.

Lemma pres_throw {A} (e : Error) : preserves ids_zero (@throw A e).
Proof. intros s Hs; exact Hs. Qed.

Lemma pres_lift {A} (r : Res A) : preserves ids_zero (lift r).
Proof. destruct r; [apply pres_ret | apply pres_throw]. Qed.

Lemma pres_get_ctl : preserves ids_zero get_ctl.
Proof. intros s Hs; exact Hs. Qed.

Lemma pres_log_event (ev : Event) : preserves ids_zero (log_event ev).
Proof. intros [c w] Hs; exact Hs. Qed.

Lemma pres_lock_write : preserves ids_zero lock_write.
Proof.
  intros [c w] Hs; unfold lock_write; simpl.
  destruct (poisoned w); [exact Hs | apply pres_log_event, Hs].
Qed.

Lemma pres_unlock : preserves ids_zero unlock.
Proof. apply pres_log_event. Qed.

Lemma pres_scoped {A} (body : M A) :
  preserves ids_zero body -> preserves ids_zero (scoped_write body).
Proof.
  intros Hb. unfold scoped_write. apply pres_bind; [apply pres_lock_write|].
  intros _ s Hs. specialize (Hb s Hs). destruct (body s) as [r s'].
  pose proof (pres_unlock s' Hb) as Hu. destruct (unlock s'); exact Hu.
Qed.

Lemma pres_ignore {A} (c : M A) : preserves ids_zero c -> preserves ids_zero (ignore c).
Proof. intros Hc s Hs. exact (Hc s Hs). Qed.

Lemma pres_modify_stats (f : Stats -> Stats) : preserves ids_zero (modify_stats f).
Proof. intros [c w] Hs; exact Hs. Qed.

Lemma pres_miner_send (m : MinerMessage) : preserves ids_zero (miner_send m).
Proof.
  unfold miner_send. apply pres_bind; [apply pres_log_event|].
  intros _ [c w] Hs; simpl. destruct (miner_alive w); exact Hs.
Qed.

Lemma pres_set_stream (o : option Stream) : preserves ids_zero (set_stream o).
Proof. intros [c w] Hs; exact Hs. Qed.

Lemma pres_from_value {A} (dec : Json -> option A) (v : Json) :
  preserves ids_zero (from_value dec v).
Proof. unfold from_value; destruct (dec v); [apply pres_ret | apply pres_throw]. Qed.

Lemma pres_stream_write_request (r : RpcRequest) :
  req_id r = "0" -> preserves ids_zero (stream_write_request r).
Proof.
  intros Hr [c w] [Hc Hw]; split; [exact Hc|]; simpl.
  apply Forall_app; split; [exact Hw | constructor; [exact Hr | constructor]].
Qed.

Create HintDb ids.
#[local] Hint Resolve pres_ret pres_throw pres_lift pres_get_ctl pres_log_event
  pres_lock_write pres_unlock pres_modify_stats pres_miner_send pres_set_stream
  pres_from_value : ids.

Ltac solve_pres :=
  repeat match goal with
  | |- preserves _ (bind get_ctl _) => apply pres_bind; [apply pres_get_ctl|intros ?; cbv beta]
  | |- preserves _ (bind _ _) => apply pres_bind; [|intros ?; cbv beta]
  | |- preserves _ (scoped_write _) => apply pres_scoped
  | |- preserves _ (ignore _) => apply pres_ignore
  | |- preserves _ (match ?x with _ => _ end) => destruct x
  end;
  eauto with ids.

Lemma pres_send_message (req : RpcRequest) :
  req_id req = "0" -> preserves ids_zero (send_message req).
Proof.
  intros Hr. unfold send_message. apply pres_bind; [apply pres_get_ctl|].
  intros c. destruct (stream c); [|apply pres_throw].
  apply pres_bind; [apply pres_stream_write_request, Hr|intros _].
  solve_pres.
Qed.

(** The sending operations read [last_request_id] when they build their
    request; under the invariant that is 0, hence the id ["0"]. *)
Ltac pres_with_ctl :=
  apply pres_bind_get;
  let s := fresh "s" in let Hs := fresh "Hs" in
  intros s Hs; cbv beta zeta;
  rewrite (proj1 Hs);
  match goal with
  | |- ids_zero (snd (?c s)) =>
      let Hc := fresh "Hc" in
      cut (preserves ids_zero c); [intros Hc; exact (Hc s Hs)|]
  end;
  unfold modify_client, modify_solution; solve_pres;
  apply pres_send_message; reflexivity.

Lemma pres_send_message_get_job_template : preserves ids_zero send_message_get_job_template.
Proof. unfold send_message_get_job_template. pres_with_ctl. Qed.

Lemma pres_send_login : preserves ids_zero send_login.
Proof.
  unfold send_login. apply pres_bind_get; intros s Hs; cbv beta zeta.
  rewrite (proj1 Hs).
  destruct (String.eqb _ ""); [exact Hs|].
  match goal with
  | |- ids_zero (snd (?c s)) => cut (preserves ids_zero c); [intros Hc; exact (Hc s Hs)|]
  end.
  unfold modify_client; solve_pres. apply pres_send_message; reflexivity.
Qed.

Lemma pres_send_message_get_status : preserves ids_zero send_message_get_status.
Proof.
  unfold send_message_get_status. apply pres_bind_get; intros s Hs; cbv beta.
  rewrite (proj1 Hs). apply pres_send_message; [reflexivity | exact Hs].
Qed.

Lemma pres_send_message_submit (h : N) (sol : Solution) :
  preserves ids_zero (send_message_submit h sol).
Proof. unfold send_message_submit. pres_with_ctl. Qed.

Lemma pres_handle_request (req : RpcRequest) : preserves ids_zero (handle_request req).
Proof.
  unfold handle_request, forward_job, send_miner_job, send_miner_stop, modify_client.
  cbv zeta. solve_pres.
Qed.

Lemma pres_handle_response (res : RpcResponse) : preserves ids_zero (handle_response res).
Proof.
  unfold handle_response, forward_job, send_miner_job, send_miner_stop, send_miner_seed,
    set_received, modify_client, modify_solution.
  cbv zeta. solve_pres.
Qed.

Lemma pres_read_message (r : ReadLine) : preserves ids_zero (read_message r).
Proof. unfold read_message. solve_pres. Qed.

Lemma pres_mark_received (a : Algorithm) : preserves ids_zero (mark_received a).
Proof. unfold mark_received, modify_client. solve_pres. Qed.

Lemma drain_ids (msgs : list ClientMessage) (s : St) :
  ids_zero s -> ids_zero (snd (drain msgs s)).
Proof.
  revert s; induction msgs as [|m rest IH]; intros s Hs; simpl; [exact Hs|].
  destruct m as [h sol|]; [|exact Hs].
  pose proof (pres_send_message_submit h sol s Hs) as H1.
  destruct (send_message_submit h sol s) as [[u|e] s1]; apply IH; [exact H1|].
  exact (pres_set_stream None s1 H1).
Qed.

Lemma finish_ids (env : Env) (s : St) nread nstatus nretry wd ls' :
  ids_zero s -> finish env s nread nstatus nretry wd = Next ls' -> ids_zero (ls_st ls').
Proof.
  unfold finish. intros Hs. pose proof (drain_ids (env_pending env) s Hs) as Hd.
  destruct (drain (env_pending env) s) as [stop s']; simpl in Hd.
  destruct stop; intros E; inversion E; subst; exact Hd.
Qed.

Lemma after_read_ids (env : Env) (s : St) nread nstatus nretry wd ls' :
  ids_zero s -> after_read env s nread nstatus nretry wd = Next ls' -> ids_zero (ls_st ls').
Proof.
  unfold after_read. intros Hs.
  destruct (Z.gtb _ _); apply finish_ids; [|exact Hs].
  exact (pres_ignore _ pres_send_message_get_status s Hs).
Qed.

Lemma apply_env_ids (env : Env) (s : St) : ids_zero s -> ids_zero (apply_env env s).
Proof. destruct s as [c w]; intros Hs; exact Hs. Qed.

Lemma iteration_ids (env : Env) (ls ls' : LoopSt) :
  ids_zero (ls_st ls) -> iteration env ls = Next ls' -> ids_zero (ls_st ls').
Proof.
  intros H0. unfold iteration.
  pose proof (apply_env_ids env _ H0) as Hs0.
  set (s0 := apply_env env (ls_st ls)) in *.
  destruct (stream (ctl s0)) as [strm|] eqn:Estream.
  - set (s1 := if was_disconnected ls
               then exec (ignore send_login ;;; ignore send_message_get_job_template) s0
               else s0).
    assert (Hs1 : ids_zero s1).
    { unfold s1; destruct (was_disconnected ls); [|exact Hs0].
      exact (pres_bind _ _ (pres_ignore _ pres_send_login)
               (fun _ => pres_ignore _ pres_send_message_get_job_template) s0 Hs0). }
    clearbody s1.
    destruct (Z.gtb _ _); [|apply after_read_ids, Hs1].
    pose proof (pres_read_message (env_read env) s1 Hs1) as Hr.
    destruct (read_message (env_read env) s1) as [[[m|]|e] s2]; simpl in Hr.
    + destruct (poisoned (world s2)); [discriminate|].
      pose proof (pres_mark_received (ctl_algorithm (ctl s0)) s2 Hr) as Hm.
      unfold exec.
      destruct (classify m) as [|[r|]|[r|]]; intros E.
      * exact (after_read_ids _ _ _ _ _ _ _ Hm E).
      * inversion E; subst; exact (pres_handle_request r _ Hm).
      * inversion E; subst; exact Hm.
      * inversion E; subst; exact (pres_handle_response r _ Hm).
      * inversion E; subst; exact Hm.
    + apply after_read_ids, Hr.
    + intros E; inversion E; subst; exact (pres_set_stream None s2 Hr).
  - set (s1 := if negb (was_disconnected ls) then exec (ignore send_miner_stop) s0 else s0).
    assert (Hs1 : ids_zero s1).
    { unfold s1; destruct (negb _); [|exact Hs0].
      exact (pres_ignore _ (pres_miner_send StopJob) s0 Hs0). }
    clearbody s1.
    destruct (Z.gtb _ _); [|apply finish_ids, Hs1].
    pose proof (pres_set_stream (Some NoStream) s1 Hs1) as Hs2.
    unfold exec at 1.
    destruct (stream_try_connect _ _ _) as [strm| e |]; [| |discriminate].
    + pose proof (pres_set_stream (Some strm) _ Hs2) as Hs3.
      destruct (poisoned _); [discriminate|].
      apply finish_ids. unfold exec, modify_client. revert Hs3. generalize (exec (set_stream (Some strm)) (snd (set_stream (Some NoStream) s1))). intros s3 Hs3.
      apply (pres_scoped _ (pres_modify_stats _)); exact Hs3.
    + destruct (poisoned _); [discriminate|].
      intros E; inversion E; subst; simpl.
      unfold exec, modify_client.
      apply pres_scoped; [solve_pres|exact Hs2].
Qed.

(** C10: in every state [run] reaches from [Controller::new], the request
    counter is still 0 and every request written to the server (login,
    getjobtemplate, status, submit) carries the id ["0"]. *)
Theorem reachable_request_ids (ls : LoopSt) (H : reachable ls) :
  last_request_id (ctl (ls_st ls)) = 0%N /\
  Forall (fun r => req_id r = "0") (wire (world (ls_st ls))).
Proof.
  induction H as [a url login password tls st0 t0|ls env ls' _ IH E].
  - split; [reflexivity | constructor].
  - exact (iteration_ids env ls ls' IH E).
Qed.

Lemma run_steps_reachable (envs : list Env) (ls ls' : LoopSt) :
  reachable ls -> run_steps envs ls = Some ls' -> reachable ls'.
Proof.
  revert ls; induction envs as [|env rest IH]; intros ls Hr E; simpl in E.
  - injection E as <-; exact Hr.
  - destruct (iteration env ls) as [l|l|] eqn:Ei; try discriminate.
    exact (IH l (reach_step ls env l Hr Ei) E).
Qed.

(** *** Messages to the miner *)

(** C4 (as amended): [send_miner_job] sends [ReceivedSeed] first; it
    then sends [ReceivedJob] with the difficulty found for the
    controller's algorithm, unless the difficulty lookup, the stats lock
    or the channel failed before.  [ReceivedJob] never comes before
    [ReceivedSeed].  Exactly: with a dead channel nothing is sent; when
    the lookup fails only the seed is sent; when the lock is poisoned
    only the seed is sent; otherwise the seed and then the job are sent
    and the call succeeds. *)
Theorem send_miner_job_seed_then_job (job : JobTemplate) (s : St) :
  let rx := miner_rx (world s) in
  let (out, s') := send_miner_job job s in
  if miner_alive (world s) then
    match difficulty_loop (ctl_algorithm (ctl s)) (difficulty job) 1 with
    | Err e => out = Err e /\ miner_rx (world s') = (rx ++ [ReceivedSeed (epochs job)])%list
    | Ok d =>
        if poisoned (world s) then
          out = Err (GeneralError "Failed to get lock") /\
          miner_rx (world s') = (rx ++ [ReceivedSeed (epochs job)])%list
        else
          out = Ok tt /\
          miner_rx (world s') =
            (rx ++ [ReceivedSeed (epochs job);
                    ReceivedJob (height job) (job_id job) d (pre_pow job)])%list
    end
  else out = Err (GeneralError "Failed to send to a channel") /\ miner_rx (world s') = rx.
Proof.
  destruct s as [c [st p al rx wr ev]].
  unfold send_miner_job, miner_send, bind, log_event, get_ctl, lift; simpl.
  destruct al; simpl; [|split; reflexivity].
  destruct (difficulty_loop (ctl_algorithm c) (difficulty job) 1) as [d|e]; simpl;
    [|split; reflexivity].
  unfold scoped_write, lock_write, bind; simpl.
  destruct p; simpl; [split; reflexivity|].
  split; [reflexivity|]. now rewrite <- app_assoc.
Qed.

(** *** Login failure *)

(** C5 (as amended): the [login] error handler sets [connection_status]
    to "Server requires login" and [connected] to false together; the
    block [run] executes for every frame it receives afterwards sets
    [connected] back to true and leaves [connection_status] as it was. *)
Theorem login_error_then_frame (res : RpcResponse) (s : St) (a : Algorithm)
  (Hm : res_method res = "login") (Hr : res_result res = None)
  (Hp : poisoned (world s) = false) :
  let s1 := exec (handle_response res) s in
  let s2 := exec (mark_received a) s1 in
  connected (cstats s1) = false /\
  connection_status (cstats s1) = "Connection Status: Server requires login" /\
  connected (cstats s2) = true /\
  connection_status (cstats s2) = connection_status (cstats s1).
Proof.
  destruct s as [c [st p al rx wr ev]]; simpl in Hp; subst p.
  unfold exec, handle_response; rewrite Hm; simpl; rewrite Hr; simpl.
  repeat split.
Qed.

(** *** Relations kept by the controller's operations

    A relation between states that holds for every primitive step the
    operations are built from holds across the operations, across one
    iteration of the loop and across any number of iterations. *)

Section Rel.

Variable R : St -> St -> Prop.
Hypothesis R_refl : forall s, R s s.
Hypothesis R_trans : forall s1 s2 s3, R s1 s2 -> R s2 s3 -> R s1 s3.

Lemma rel_ret {A} (a : A) : rel_step R (ret a).
Proof. intros s; apply R_refl. Qed.

Lemma rel_throw {A} (e : Error) : rel_step R (@throw A e).
Proof. intros s; apply R_refl. Qed.

Lemma rel_lift {A} (r : Res A) : rel_step R (lift r).
Proof. destruct r; [apply rel_ret | apply rel_throw]. Qed.

Lemma rel_get_ctl : rel_step R get_ctl.
Proof. intros s; apply R_refl. Qed.

Lemma rel_from_value {A} (dec : Json -> option A) (v : Json) : rel_step R (from_value dec v).
Proof. unfold from_value; destruct (dec v); [apply rel_ret | apply rel_throw]. Qed.

Lemma rel_bind {A B} (c : M A) (k : A -> M B) :
  rel_step R c -> (forall a, rel_step R (k a)) -> rel_step R (bind c k).
Proof.
  intros Hc Hk s. unfold bind. specialize (Hc s).
  destruct (c s) as [[a|e] s']; simpl in *; [exact (R_trans _ _ _ Hc (Hk a s')) | exact Hc].
Qed.

Lemma rel_ignore {A} (c : M A) : rel_step R c -> rel_step R (ignore c).
Proof. intros Hc s. exact (Hc s). Qed.

Hypothesis R_log : forall ev, rel_step R (log_event ev).

Lemma rel_lock_write : rel_step R lock_write.
Proof.
  intros [c w]; unfold lock_write; simpl.
  destruct (poisoned w); [apply R_refl | apply R_log].
Qed.

Lemma rel_scoped {A} (body : M A) : rel_step R body -> rel_step R (scoped_write body).
Proof.
  intros Hb. unfold scoped_write. apply rel_bind; [apply rel_lock_write|].
  intros _ s. specialize (Hb s). destruct (body s) as [r s'].
  pose proof (R_log EvLockRelease s') as Hu. unfold unlock.
  destruct (log_event EvLockRelease s') as [u s''] eqn:E; simpl in *.
  exact (R_trans _ _ _ Hb Hu).
Qed.

Hypothesis R_client : forall f, rel_step R (modify_client f).
Hypothesis R_send : forall m, rel_step R (miner_send m).
Hypothesis R_write : forall r, rel_step R (stream_write_request r).
Hypothesis R_accepted : rel_step R (modify_solution incr_shares_accepted).
Hypothesis R_rejected : rel_step R (modify_solution incr_rejected).
Hypothesis R_staled : rel_step R (modify_solution incr_staled).
Hypothesis R_blocks : rel_step R (modify_solution incr_blocks_found).
Hypothesis R_stream_none : rel_step R (set_stream None).
Hypothesis R_stream : forall o, rel_step R (set_stream o).
Hypothesis R_env : forall env s, R s (apply_env env s).

Ltac rel_solve :=
  repeat (cbv beta zeta;
  match goal with
  | |- rel_step R (bind _ _) => apply rel_bind; [|intros ?]
  | |- rel_step R (scoped_write _) => apply rel_scoped
  | |- rel_step R (ignore _) => apply rel_ignore
  | |- rel_step R (ret _) => apply rel_ret
  | |- rel_step R (throw _) => apply rel_throw
  | |- rel_step R (lift _) => apply rel_lift
  | |- rel_step R get_ctl => apply rel_get_ctl
  | |- rel_step R (from_value _ _) => apply rel_from_value
  | |- rel_step R (log_event _) => apply R_log
  | |- rel_step R (set_received _) => apply R_client
  | |- rel_step R (modify_client _) => apply R_client
  | |- rel_step R (miner_send _) => apply R_send
  | |- rel_step R send_miner_stop => apply R_send
  | |- rel_step R (stream_write_request _) => apply R_write
  | |- rel_step R (modify_solution incr_shares_accepted) => apply R_accepted
  | |- rel_step R (modify_solution incr_rejected) => apply R_rejected
  | |- rel_step R (modify_solution incr_staled) => apply R_staled
  | |- rel_step R (modify_solution incr_blocks_found) => apply R_blocks
  | |- rel_step R (send_message _) => unfold send_message
  | |- rel_step R (send_miner_seed _) => unfold send_miner_seed
  | |- rel_step R (send_miner_job _) => unfold send_miner_job
  | |- rel_step R (forward_job _) => unfold forward_job
  | |- rel_step R (match ?x with _ => _ end) => destruct x
  end).

Lemma rel_send_message (req : RpcRequest) : rel_step R (send_message req).
Proof. rel_solve. Qed.

Lemma rel_send_message_get_job_template : rel_step R send_message_get_job_template.
Proof. unfold send_message_get_job_template. rel_solve. Qed.

Lemma rel_send_login : rel_step R send_login.
Proof. unfold send_login. rel_solve. Qed.

Lemma rel_send_message_get_status : rel_step R send_message_get_status.
Proof. unfold send_message_get_status. rel_solve. Qed.

Lemma rel_send_message_submit (h : N) (sol : Solution) : rel_step R (send_message_submit h sol).
Proof. unfold send_message_submit. rel_solve. Qed.

Lemma rel_handle_request (req : RpcRequest) : rel_step R (handle_request req).
Proof. unfold handle_request. rel_solve. Qed.

Lemma rel_handle_response (res : RpcResponse) : rel_step R (handle_response res).
Proof. unfold handle_response. rel_solve. Qed.

Lemma rel_handle_response_not_submit (res : RpcResponse) :
  res_method res <> "submit" -> rel_step R (handle_response res).
Proof.
  intros Hm. apply String.eqb_neq in Hm.
  unfold handle_response. cbv zeta. rewrite Hm. rel_solve.
Qed.

Lemma rel_handle_response_no_miner (res : RpcResponse) :
  res_method res <> "getjobtemplate" -> res_method res <> "seed" ->
  rel_step R (handle_response res).
Proof.
  intros H1 H2. apply String.eqb_neq in H1, H2.
  unfold handle_response. cbv zeta. rewrite H1, H2. rel_solve.
Qed.

Lemma rel_read_message (r : ReadLine) : rel_step R (read_message r).
Proof. unfold read_message. rel_solve. Qed.

Lemma rel_mark_received (a : Algorithm) : rel_step R (mark_received a).
Proof. unfold mark_received. rel_solve. Qed.

Lemma rel_drain (msgs : list ClientMessage) (s : St) : R s (snd (drain msgs s)).
Proof.
  revert s; induction msgs as [|m rest IH]; intros s; simpl; [apply R_refl|].
  destruct m as [h sol|]; [|apply R_refl].
  pose proof (rel_send_message_submit h sol s) as H1.
  destruct (send_message_submit h sol s) as [[u|e] s1]; simpl in H1.
  - exact (R_trans _ _ _ H1 (IH s1)).
  - exact (R_trans _ _ _ H1 (R_trans _ _ _ (R_stream_none s1) (IH _))).
Qed.

Lemma rel_finish (env : Env) (s : St) nread nstatus nretry wd ls' :
  finish env s nread nstatus nretry wd = Next ls' -> R s (ls_st ls').
Proof.
  unfold finish. pose proof (rel_drain (env_pending env) s) as Hd.
  destruct (drain (env_pending env) s) as [stop s']; simpl in Hd.
  destruct stop; intros E; inversion E; subst; exact Hd.
Qed.

Lemma rel_after_read (env : Env) (s : St) nread nstatus nretry wd ls' :
  after_read env s nread nstatus nretry wd = Next ls' -> R s (ls_st ls').
Proof.
  unfold after_read. destruct (Z.gtb _ _); intros E; [|exact (rel_finish _ _ _ _ _ _ _ E)].
  exact (R_trans _ _ _ (rel_ignore _ rel_send_message_get_status s) (rel_finish _ _ _ _ _ _ _ E)).
Qed.

Lemma rel_handshake : rel_step R (ignore send_login ;;; ignore send_message_get_job_template).
Proof.
  exact (rel_bind _ _ (rel_ignore _ rel_send_login)
           (fun _ => rel_ignore _ rel_send_message_get_job_template)).
Qed.

Lemma rel_miner_stop : rel_step R (ignore send_miner_stop).
Proof. apply rel_ignore, R_send. Qed.

Lemma rel_connected_status (f : ClientStats -> ClientStats) :
  rel_step R (scoped_write (modify_client f)).
Proof. apply (rel_scoped _ (R_client _)). Qed.

Lemma rel_connect_failed (st : string) :
  rel_step R (scoped_write (modify_client (set_connection_status st) ;;;
                            modify_client (set_connected false) ;;; set_stream None)).
Proof. apply rel_scoped. rel_solve. apply R_stream_none. Qed.

Lemma rel_iteration (env : Env) (ls ls' : LoopSt) :
  iteration env ls = Next ls' -> R (ls_st ls) (ls_st ls').
Proof.
  unfold iteration. pose proof (R_env env (ls_st ls)) as H0.
  set (s0 := apply_env env (ls_st ls)) in *.
  destruct (stream (ctl s0)) as [strm|].
  - set (s1 := if was_disconnected ls
               then exec (ignore send_login ;;; ignore send_message_get_job_template) s0
               else s0).
    assert (H1 : R (ls_st ls) s1).
    { unfold s1; destruct (was_disconnected ls); [|exact H0].
      exact (R_trans _ _ _ H0 (rel_bind _ _ (rel_ignore _ rel_send_login)
               (fun _ => rel_ignore _ rel_send_message_get_job_template) s0)). }
    clearbody s1.
    destruct (Z.gtb _ _); [|intros E; exact (R_trans _ _ _ H1 (rel_after_read _ _ _ _ _ _ _ E))].
    pose proof (R_trans _ _ _ H1 (rel_read_message (env_read env) s1)) as Hr.
    destruct (read_message (env_read env) s1) as [[[m|]|e] s2]; simpl in Hr.
    + destruct (poisoned (world s2)); [discriminate|].
      pose proof (R_trans _ _ _ Hr (rel_mark_received (ctl_algorithm (ctl s0)) s2)) as Hm.
      unfold exec.
      destruct (classify m) as [|[r|]|[r|]]; intros E.
      * exact (R_trans _ _ _ Hm (rel_after_read _ _ _ _ _ _ _ E)).
      * inversion E; subst; exact (R_trans _ _ _ Hm (rel_handle_request r _)).
      * inversion E; subst; exact Hm.
      * inversion E; subst; exact (R_trans _ _ _ Hm (rel_handle_response r _)).
      * inversion E; subst; exact Hm.
    + intros E; exact (R_trans _ _ _ Hr (rel_after_read _ _ _ _ _ _ _ E)).
    + intros E; inversion E; subst; exact (R_trans _ _ _ Hr (R_stream None s2)).
  - set (s1 := if negb (was_disconnected ls) then exec (ignore send_miner_stop) s0 else s0).
    assert (H1 : R (ls_st ls) s1).
    { unfold s1; destruct (negb _); [|exact H0].
      exact (R_trans _ _ _ H0 (rel_ignore _ (R_send StopJob) s0)). }
    clearbody s1.
    destruct (Z.gtb _ _); [|intros E; exact (R_trans _ _ _ H1 (rel_finish _ _ _ _ _ _ _ E))].
    pose proof (R_trans _ _ _ H1 (R_stream (Some NoStream) s1)) as H2.
    fold (exec (set_stream (Some NoStream)) s1) in H2.
    set (s2 := exec (set_stream (Some NoStream)) s1) in *. clearbody s2.
    destruct (stream_try_connect _ _ _) as [strm| e |]; [| |discriminate].
    + pose proof (R_trans _ _ _ H2 (R_stream (Some strm) s2)) as H3.
      destruct (poisoned _); [discriminate|].
      intros E. refine (R_trans _ _ _ H3 (R_trans _ _ _ _ (rel_finish _ _ _ _ _ _ _ E))).
      apply (rel_scoped _ (R_client _)).
    + destruct (poisoned _); [discriminate|].
      intros E; inversion E; subst; simpl.
      refine (R_trans _ _ _ H2 _).
      apply rel_scoped. rel_solve. apply R_stream.
Qed.

Lemma rel_run_steps (envs : list Env) (ls ls' : LoopSt) :
  run_steps envs ls = Some ls' -> R (ls_st ls) (ls_st ls').
Proof.
  revert ls; induction envs as [|env rest IH]; intros ls E; simpl in E.
  - injection E as <-; apply R_refl.
  - destruct (iteration env ls) as [l|l|] eqn:Ei; try discriminate.
    exact (R_trans _ _ _ (rel_iteration env ls l Ei) (IH l E)).
Qed.

End Rel.

(** *** Instances of the relations *)

Ltac prim_rel :=
  unfold rel_step; intros;
  repeat match goal with
  | x : St |- _ => let c := fresh "c" in let w := fresh "w" in destruct x as [c w]
  | w : World |- _ => destruct w
  end;
  unfold same_ctl, same_wire, same_rx, same_solution, same_config, counters_grow, counters_le,
    stream_ok_rel, sstats, cstats, log_event, miner_send, modify_client, modify_solution,
    modify_stats, stream_write_request, set_stream, apply_env, set_world, with_events, bind,
    incr_shares_accepted, incr_rejected, incr_staled, incr_blocks_found in *;
  simpl in *;
  repeat match goal with |- context [if ?b then _ else _] => destruct b end;
  simpl; first [reflexivity | (repeat split; lia) | auto].

Lemma same_ctl_refl (s : St) : same_ctl s s.
Proof. reflexivity. Qed.
Lemma same_ctl_trans (s1 s2 s3 : St) : same_ctl s1 s2 -> same_ctl s2 s3 -> same_ctl s1 s3.
Proof. unfold same_ctl; congruence. Qed.
Lemma same_wire_refl (s : St) : same_wire s s.
Proof. reflexivity. Qed.
Lemma same_wire_trans (s1 s2 s3 : St) : same_wire s1 s2 -> same_wire s2 s3 -> same_wire s1 s3.
Proof. unfold same_wire; congruence. Qed.
Lemma same_rx_refl (s : St) : same_rx s s.
Proof. reflexivity. Qed.
Lemma same_rx_trans (s1 s2 s3 : St) : same_rx s1 s2 -> same_rx s2 s3 -> same_rx s1 s3.
Proof. unfold same_rx; congruence. Qed.
Lemma same_solution_refl (s : St) : same_solution s s.
Proof. reflexivity. Qed.
Lemma same_solution_trans (s1 s2 s3 : St) :
  same_solution s1 s2 -> same_solution s2 s3 -> same_solution s1 s3.
Proof. unfold same_solution; congruence. Qed.
Lemma same_config_refl (s : St) : same_config s s.
Proof. reflexivity. Qed.
Lemma same_config_trans (s1 s2 s3 : St) :
  same_config s1 s2 -> same_config s2 s3 -> same_config s1 s3.
Proof. unfold same_config; congruence. Qed.
Lemma counters_grow_refl (s : St) : counters_grow s s.
Proof. unfold counters_grow, counters_le; repeat split; lia. Qed.
Lemma counters_grow_trans (s1 s2 s3 : St) :
  counters_grow s1 s2 -> counters_grow s2 s3 -> counters_grow s1 s3.
Proof. unfold counters_grow, counters_le; intros; repeat split; lia. Qed.
Lemma stream_ok_rel_refl (s : St) : stream_ok_rel s s.
Proof. intros H; exact H. Qed.
Lemma stream_ok_rel_trans (s1 s2 s3 : St) :
  stream_ok_rel s1 s2 -> stream_ok_rel s2 s3 -> stream_ok_rel s1 s3.
Proof. unfold stream_ok_rel; auto. Qed.

Lemma same_ctl_log : forall ev, rel_step same_ctl (log_event ev).
Proof. prim_rel. Qed.
Lemma same_ctl_client : forall f, rel_step same_ctl (modify_client f).
Proof. prim_rel. Qed.
Lemma same_ctl_send : forall m, rel_step same_ctl (miner_send m).
Proof. prim_rel. Qed.
Lemma same_ctl_write : forall r, rel_step same_ctl (stream_write_request r).
Proof. prim_rel. Qed.
Lemma same_ctl_accepted : rel_step same_ctl (modify_solution incr_shares_accepted).
Proof. prim_rel. Qed.
Lemma same_ctl_rejected : rel_step same_ctl (modify_solution incr_rejected).
Proof. prim_rel. Qed.
Lemma same_ctl_staled : rel_step same_ctl (modify_solution incr_staled).
Proof. prim_rel. Qed.
Lemma same_ctl_blocks : rel_step same_ctl (modify_solution incr_blocks_found).
Proof. prim_rel. Qed.
Lemma same_wire_log : forall ev, rel_step same_wire (log_event ev).
Proof. prim_rel. Qed.
Lemma same_wire_client : forall f, rel_step same_wire (modify_client f).
Proof. prim_rel. Qed.
Lemma same_wire_send : forall m, rel_step same_wire (miner_send m).
Proof. prim_rel. Qed.
Lemma same_wire_accepted : rel_step same_wire (modify_solution incr_shares_accepted).
Proof. prim_rel. Qed.
Lemma same_wire_rejected : rel_step same_wire (modify_solution incr_rejected).
Proof. prim_rel. Qed.
Lemma same_wire_staled : rel_step same_wire (modify_solution incr_staled).
Proof. prim_rel. Qed.
Lemma same_wire_blocks : rel_step same_wire (modify_solution incr_blocks_found).
Proof. prim_rel. Qed.
Lemma same_wire_stream_none : rel_step same_wire (set_stream None).
Proof. prim_rel. Qed.
Lemma same_wire_stream : forall o, rel_step same_wire (set_stream o).
Proof. prim_rel. Qed.
Lemma same_wire_env : forall env s, same_wire s (apply_env env s).
Proof. prim_rel. Qed.
Lemma same_rx_log : forall ev, rel_step same_rx (log_event ev).
Proof. prim_rel. Qed.
Lemma same_rx_client : forall f, rel_step same_rx (modify_client f).
Proof. prim_rel. Qed.
Lemma same_rx_write : forall r, rel_step same_rx (stream_write_request r).
Proof. prim_rel. Qed.
Lemma same_rx_accepted : rel_step same_rx (modify_solution incr_shares_accepted).
Proof. prim_rel. Qed.
Lemma same_rx_rejected : rel_step same_rx (modify_solution incr_rejected).
Proof. prim_rel. Qed.
Lemma same_rx_staled : rel_step same_rx (modify_solution incr_staled).
Proof. prim_rel. Qed.
Lemma same_rx_blocks : rel_step same_rx (modify_solution incr_blocks_found).
Proof. prim_rel. Qed.
Lemma same_rx_stream_none : rel_step same_rx (set_stream None).
Proof. prim_rel. Qed.
Lemma same_rx_stream : forall o, rel_step same_rx (set_stream o).
Proof. prim_rel. Qed.
Lemma same_rx_env : forall env s, same_rx s (apply_env env s).
Proof. prim_rel. Qed.
Lemma same_solution_log : forall ev, rel_step same_solution (log_event ev).
Proof. prim_rel. Qed.
Lemma same_solution_client : forall f, rel_step same_solution (modify_client f).
Proof. prim_rel. Qed.
Lemma same_solution_send : forall m, rel_step same_solution (miner_send m).
Proof. prim_rel. Qed.
Lemma same_solution_write : forall r, rel_step same_solution (stream_write_request r).
Proof. prim_rel. Qed.
Lemma same_solution_stream_none : rel_step same_solution (set_stream None).
Proof. prim_rel. Qed.
Lemma same_solution_stream : forall o, rel_step same_solution (set_stream o).
Proof. prim_rel. Qed.
Lemma same_solution_env : forall env s, same_solution s (apply_env env s).
Proof. prim_rel. Qed.
Lemma same_config_log : forall ev, rel_step same_config (log_event ev).
Proof. prim_rel. Qed.
Lemma same_config_client : forall f, rel_step same_config (modify_client f).
Proof. prim_rel. Qed.
Lemma same_config_send : forall m, rel_step same_config (miner_send m).
Proof. prim_rel. Qed.
Lemma same_config_write : forall r, rel_step same_config (stream_write_request r).
Proof. prim_rel. Qed.
Lemma same_config_accepted : rel_step same_config (modify_solution incr_shares_accepted).
Proof. prim_rel. Qed.
Lemma same_config_rejected : rel_step same_config (modify_solution incr_rejected).
Proof. prim_rel. Qed.
Lemma same_config_staled : rel_step same_config (modify_solution incr_staled).
Proof. prim_rel. Qed.
Lemma same_config_blocks : rel_step same_config (modify_solution incr_blocks_found).
Proof. prim_rel. Qed.
Lemma same_config_stream_none : rel_step same_config (set_stream None).
Proof. prim_rel. Qed.
Lemma same_config_stream : forall o, rel_step same_config (set_stream o).
Proof. prim_rel. Qed.
Lemma same_config_env : forall env s, same_config s (apply_env env s).
Proof. prim_rel. Qed.
Lemma counters_grow_log : forall ev, rel_step counters_grow (log_event ev).
Proof. prim_rel. Qed.
Lemma counters_grow_client : forall f, rel_step counters_grow (modify_client f).
Proof. prim_rel. Qed.
Lemma counters_grow_send : forall m, rel_step counters_grow (miner_send m).
Proof. prim_rel. Qed.
Lemma counters_grow_write : forall r, rel_step counters_grow (stream_write_request r).
Proof. prim_rel. Qed.
Lemma counters_grow_accepted : rel_step counters_grow (modify_solution incr_shares_accepted).
Proof. prim_rel. Qed.
Lemma counters_grow_rejected : rel_step counters_grow (modify_solution incr_rejected).
Proof. prim_rel. Qed.
Lemma counters_grow_staled : rel_step counters_grow (modify_solution incr_staled).
Proof. prim_rel. Qed.
Lemma counters_grow_blocks : rel_step counters_grow (modify_solution incr_blocks_found).
Proof. prim_rel. Qed.
Lemma counters_grow_stream_none : rel_step counters_grow (set_stream None).
Proof. prim_rel. Qed.
Lemma counters_grow_stream : forall o, rel_step counters_grow (set_stream o).
Proof. prim_rel. Qed.
Lemma counters_grow_env : forall env s, counters_grow s (apply_env env s).
Proof. prim_rel. Qed.
Lemma stream_ok_rel_log : forall ev, rel_step stream_ok_rel (log_event ev).
Proof. prim_rel. Qed.
Lemma stream_ok_rel_client : forall f, rel_step stream_ok_rel (modify_client f).
Proof. prim_rel. Qed.
Lemma stream_ok_rel_send : forall m, rel_step stream_ok_rel (miner_send m).
Proof. prim_rel. Qed.
Lemma stream_ok_rel_write : forall r, rel_step stream_ok_rel (stream_write_request r).
Proof. prim_rel. Qed.
Lemma stream_ok_rel_accepted : rel_step stream_ok_rel (modify_solution incr_shares_accepted).
Proof. prim_rel. Qed.
Lemma stream_ok_rel_rejected : rel_step stream_ok_rel (modify_solution incr_rejected).
Proof. prim_rel. Qed.
Lemma stream_ok_rel_staled : rel_step stream_ok_rel (modify_solution incr_staled).
Proof. prim_rel. Qed.
Lemma stream_ok_rel_blocks : rel_step stream_ok_rel (modify_solution incr_blocks_found).
Proof. prim_rel. Qed.
Lemma stream_ok_rel_stream_none : rel_step stream_ok_rel (set_stream None).
Proof. prim_rel. Qed.
Lemma stream_ok_rel_env : forall env s, stream_ok_rel s (apply_env env s).
Proof. prim_rel. Qed.

Create HintDb rel_inst.
#[local] Hint Resolve same_ctl_refl same_ctl_trans same_ctl_log same_ctl_client same_ctl_send same_ctl_write same_ctl_accepted same_ctl_rejected same_ctl_staled same_ctl_blocks same_wire_refl same_wire_trans same_wire_log same_wire_client same_wire_send same_wire_accepted same_wire_rejected same_wire_staled same_wire_blocks same_wire_stream_none same_wire_stream same_wire_env same_rx_refl same_rx_trans same_rx_log same_rx_client same_rx_write same_rx_accepted same_rx_rejected same_rx_staled same_rx_blocks same_rx_stream_none same_rx_stream same_rx_env same_solution_refl same_solution_trans same_solution_log same_solution_client same_solution_send same_solution_write same_solution_stream_none same_solution_stream same_solution_env same_config_refl same_config_trans same_config_log same_config_client same_config_send same_config_write same_config_accepted same_config_rejected same_config_staled same_config_blocks same_config_stream_none same_config_stream same_config_env counters_grow_refl counters_grow_trans counters_grow_log counters_grow_client counters_grow_send counters_grow_write counters_grow_accepted counters_grow_rejected counters_grow_staled counters_grow_blocks counters_grow_stream_none counters_grow_stream counters_grow_env stream_ok_rel_refl stream_ok_rel_trans stream_ok_rel_log stream_ok_rel_client stream_ok_rel_send stream_ok_rel_write stream_ok_rel_accepted stream_ok_rel_rejected stream_ok_rel_staled stream_ok_rel_blocks stream_ok_rel_stream_none stream_ok_rel_env : rel_inst.


(** ** Further properties of the controller *)

(** *** Algorithm names and difficulty lists *)

Lemma get_parse_algorithm_ok (name : string) (a : Algorithm) :
  get_parse_algorithm name = Ok a <-> name = parse_algorithm a.
Proof.
  unfold get_parse_algorithm.
  destruct (String.eqb_spec name "cuckoo") as [->|H1];
    [destruct a; simpl; split; congruence|].
  destruct (String.eqb_spec name "randomx") as [->|H2];
    [destruct a; simpl; split; congruence|].
  destruct (String.eqb_spec name "progpow") as [->|H3];
    [destruct a; simpl; split; congruence|].
  split; [discriminate|]. intros ->; destruct a; simpl in *; congruence.
Qed.

Lemma get_parse_algorithm_err (name : string) :
  (forall a, name <> parse_algorithm a) ->
  get_parse_algorithm name = Err (RequestError "Algorithm isn't supported!").
Proof.
  intros H. unfold get_parse_algorithm.
  destruct (String.eqb_spec name "cuckoo") as [->|_]; [destruct (H Cuckoo eq_refl)|].
  destruct (String.eqb_spec name "randomx") as [->|_]; [destruct (H RandomX eq_refl)|].
  destruct (String.eqb_spec name "progpow") as [->|_]; [destruct (H ProgPow eq_refl)|].
  reflexivity.
Qed.

(** X1: [get_parse_algorithm] and [parse_algorithm] are inverse: the
    token of every algorithm parses back to it, a name that parses gives
    an algorithm whose token is that very name, and every other name
    (other spellings or capitalisations included) is refused with
    "Algorithm isn't supported!". *)
Theorem get_parse_algorithm_roundtrip :
  (forall a, get_parse_algorithm (parse_algorithm a) = Ok a) /\
  (forall name a, get_parse_algorithm name = Ok a -> name = parse_algorithm a) /\
  (forall name, (forall a, name <> parse_algorithm a) ->
     get_parse_algorithm name = Err (RequestError "Algorithm isn't supported!")).
Proof.
  split; [intros a; apply get_parse_algorithm_ok; reflexivity|].
  split; [intros name a; apply get_parse_algorithm_ok|].
  exact get_parse_algorithm_err.
Qed.

Lemma parse_difficulty_fold (l : list (string * N)) (c p r : string) :
  fold_left (fun '(c, p, r) '(algo, diff) =>
               if String.eqb algo "cuckoo" then (string_of_N diff, p, r)
               else if String.eqb algo "randomx" then (c, p, string_of_N diff)
               else if String.eqb algo "progpow" then (c, string_of_N diff, r)
               else (c, p, r)) l (c, p, r) =
  (fold_left (fun acc '(a, d) => if String.eqb a "cuckoo" then string_of_N d else acc) l c,
   fold_left (fun acc '(a, d) => if String.eqb a "progpow" then string_of_N d else acc) l p,
   fold_left (fun acc '(a, d) => if String.eqb a "randomx" then string_of_N d else acc) l r).
Proof.
  revert c p r; induction l as [|[a d] l IH]; intros c p r; simpl; [reflexivity|].
  destruct (String.eqb_spec a "cuckoo") as [->|H1]; [apply IH|].
  destruct (String.eqb_spec a "randomx") as [->|H2]; [apply IH|].
  destruct (String.eqb_spec a "progpow") as [->|H3]; [apply IH|].
  apply IH.
Qed.

(** X2: [parse_difficulty] prints, for each of cuckoo, progpow and
    randomx, the value of the LAST entry of the list with that name, and
    "Nan" when there is none; entries with any other name are ignored. *)
Theorem parse_difficulty_last_entry (l : list (string * N)) :
  parse_difficulty l =
  cat ["Cuckatoo: "; last_diff "cuckoo" l; ", ProgPow: "; last_diff "progpow" l;
       ", RandomX: "; last_diff "randomx" l].
Proof. unfold parse_difficulty. rewrite parse_difficulty_fold. reflexivity. Qed.

Lemma algorithm_eqb_token (me b : Algorithm) :
  algorithm_eqb me b = String.eqb (parse_algorithm b) (parse_algorithm me).
Proof. destruct me, b; reflexivity. Qed.

(** X3: the difficulty loop of [send_miner_job] stops at the FIRST entry
    that names the controller's algorithm or a name [get_parse_algorithm]
    refuses: in the first case it gives that entry's value, in the second
    the error "Algorithm isn't supported!"; with no such entry it keeps
    the starting value (1 in [send_miner_job]). *)
Theorem difficulty_loop_first_stop (me : Algorithm) (l : list (string * N)) (diff : N) :
  difficulty_loop me l diff =
  match first_stop me l with
  | None => Ok diff
  | Some (a, d) => if is_known a then Ok d else Err (RequestError "Algorithm isn't supported!")
  end.
Proof.
  unfold first_stop. induction l as [|[a d] l IH]; simpl; [reflexivity|].
  destruct (get_parse_algorithm a) as [b|e] eqn:Eb.
  - assert (Hk : is_known a = true) by (unfold is_known; rewrite Eb; reflexivity).
    rewrite Hk. apply get_parse_algorithm_ok in Eb as Ea. rewrite algorithm_eqb_token, <- Ea.
    simpl. rewrite orb_false_r.
    destruct (String.eqb a (parse_algorithm me)); [simpl; rewrite Hk; reflexivity|exact IH].
  - assert (Hk : is_known a = false) by (unfold is_known; rewrite Eb; reflexivity).
    rewrite Hk, orb_true_r. simpl. rewrite Hk. unfold get_parse_algorithm in Eb.
    destruct (String.eqb a "cuckoo"); [discriminate|].
    destruct (String.eqb a "randomx"); [discriminate|].
    destruct (String.eqb a "progpow"); [discriminate|].
    congruence.
Qed.

(** *** Handling what the server sends *)

Lemma algo_token_mismatch (me : Algorithm) (name : string) :
  name <> parse_algorithm me ->
  String.eqb (parse_algorithm me) (algo_needed_token name) = false.
Proof.
  intros H. unfold algo_needed_token.
  destruct (String.eqb_spec name "cuckoo") as [->|_];
    [destruct me; simpl in *; congruence|].
  destruct (String.eqb_spec name "randomx") as [->|_];
    [destruct me; simpl in *; congruence|].
  destruct (String.eqb_spec name "progpow") as [->|_];
    [destruct me; simpl in *; congruence|].
  destruct me; reflexivity.
Qed.

(** X4: a [job] request whose algorithm is not exactly the controller's
    token (another algorithm, an unknown name, another capitalisation)
    makes the miner receive exactly one [StopJob]; the stats and the
    requests sent to the server are left as they were. *)
Theorem handle_request_other_algorithm (req : RpcRequest) (p : Json) (job : JobTemplate) (s : St)
  (Hm : req_method req = "job") (Hp : req_params req = Some p) (Hd : job_of_json p = Some job)
  (Ha : algorithm job <> parse_algorithm (ctl_algorithm (ctl s)))
  (Hal : miner_alive (world s) = true) :
  let (out, s') := handle_request req s in
  out = Ok tt /\ miner_rx (world s') = (miner_rx (world s) ++ [StopJob])%list /\
  stats (world s') = stats (world s) /\ wire (world s') = wire (world s).
Proof.
  destruct s as [c [st po al rx wr ev]]; simpl in Ha, Hal; subst al.
  unfold handle_request; rewrite Hm, Hp; simpl.
  unfold from_value; rewrite Hd; simpl.
  unfold forward_job, bind, get_ctl; simpl.
  rewrite (algo_token_mismatch _ _ Ha); simpl.
  repeat split.
Qed.

(** X5: handling a request or a response never writes anything to the
    server and never changes the controller's own fields (its stream,
    its configuration, its request counter). *)
Theorem handlers_never_write (req : RpcRequest) (res : RpcResponse) (s : St) :
  wire (world (exec (handle_request req) s)) = wire (world s) /\
  ctl (exec (handle_request req) s) = ctl s /\
  wire (world (exec (handle_response res) s)) = wire (world s) /\
  ctl (exec (handle_response res) s) = ctl s.
Proof.
  assert (H1 : rel_step same_wire (handle_request req))
    by (eapply rel_handle_request; eauto with rel_inst).
  assert (H2 : rel_step same_ctl (handle_request req))
    by (eapply rel_handle_request; eauto with rel_inst).
  assert (H3 : rel_step same_wire (handle_response res))
    by (eapply rel_handle_response; eauto with rel_inst).
  assert (H4 : rel_step same_ctl (handle_response res))
    by (eapply rel_handle_response; eauto with rel_inst).
  exact (conj (H1 s) (conj (H2 s) (conj (H3 s) (H4 s)))).
Qed.

(** X6: the share counters (accepted, rejected, stale, blocks found)
    change only when a [submit] response is handled: a request, or a
    response with any other method, leaves all four as they were. *)
Theorem counters_change_only_on_submit (req : RpcRequest) (res : RpcResponse) (s : St)
  (Hm : res_method res <> "submit") :
  sstats (exec (handle_request req) s) = sstats s /\
  sstats (exec (handle_response res) s) = sstats s.
Proof.
  assert (H1 : rel_step same_solution (handle_request req))
    by (eapply rel_handle_request; eauto with rel_inst).
  assert (H2 : rel_step same_solution (handle_response res))
    by (eapply rel_handle_response_not_submit; eauto with rel_inst).
  exact (conj (H1 s) (H2 s)).
Qed.

(** X7: only [getjobtemplate] and [seed] responses send anything to the
    miner: a response with any other method leaves the miner channel
    untouched. *)
Theorem miner_untouched_by_other_responses (res : RpcResponse) (s : St)
  (H1 : res_method res <> "getjobtemplate") (H2 : res_method res <> "seed") :
  miner_rx (world (exec (handle_response res) s)) = miner_rx (world s).
Proof.
  assert (H : rel_step same_rx (handle_response res))
    by (eapply rel_handle_response_no_miner; eauto with rel_inst).
  exact (H s).
Qed.

Ltac run_m :=
  unfold log_event, lock_write, unlock, miner_send, set_received, modify_client,
    modify_solution, modify_stats, stream_write_request, set_stream, bind, get_ctl, lift,
    ret, throw, from_value in *;
  unfold set_world, with_events in *;
  repeat (simpl; match goal with
                 | |- context [match ?x with _ => _ end] =>
                     lazymatch x with
                     | context [match _ with _ => _ end] => fail
                     | _ => destruct x
                     end
                 end);
  simpl.

(** X8: while the stats lock is poisoned, handling a request or a
    response never changes the stats: every update sits behind
    [self.stats.write()?], which fails first. *)
Theorem handlers_poisoned_keep_stats (req : RpcRequest) (res : RpcResponse) (s : St)
  (Hp : poisoned (world s) = true) :
  stats (world (exec (handle_request req) s)) = stats (world s) /\
  stats (world (exec (handle_response res) s)) = stats (world s).
Proof.
  destruct s as [c [st po al rx wr ev]]; simpl in Hp; subst po.
  split.
  - unfold exec, handle_request, forward_job, send_miner_job, send_miner_stop, scoped_write.
    run_m; reflexivity.
  - unfold exec, handle_response, forward_job, send_miner_job, send_miner_stop, send_miner_seed,
      scoped_write.
    cbv zeta. run_m; reflexivity.
Qed.

(** X9: a [keepalive] or [login] response carrying a [result] changes
    nothing at all: not the stats (not even the last message received),
    not the miner channel, and no lock is taken. *)
Theorem handle_response_ok_keepalive_login (res : RpcResponse) (r : Json) (s : St)
  (Hm : res_method res = "keepalive" \/ res_method res = "login")
  (Hr : res_result res = Some r) :
  handle_response res s = (Ok tt, s).
Proof.
  unfold handle_response. destruct Hm as [Hm|Hm]; rewrite Hm; simpl; rewrite Hr; reflexivity.
Qed.

(** X10: a [status] response carrying a [result] that does not decode as
    a [WorkerStatus] fails with a JSON error and changes nothing; one that
    decodes only records the server's accepted, rejected and stale counts
    in [last_message_received]: the share counters and the connection
    fields stay as they were. *)
Theorem handle_response_status_result (res : RpcResponse) (r : Json) (s : St)
  (Hm : res_method res = "status") (Hr : res_result res = Some r)
  (Hp : poisoned (world s) = false) :
  match status_of_json r with
  | None => handle_response res s = (Err (JsonError "Failed to parse JSON"), s)
  | Some st =>
      let (out, s') := handle_response res s in
      out = Ok tt /\
      last_message_received (cstats s') =
        cat ["Last Message Received: Accepted: "; string_of_N (ws_accepted st);
             ", Rejected: "; string_of_N (ws_rejected st); ", Stale: "; string_of_N (ws_stale st)] /\
      sstats s' = sstats s /\ connected (cstats s') = connected (cstats s) /\
      connection_status (cstats s') = connection_status (cstats s)
  end.
Proof.
  destruct s as [c [st po al rx wr ev]]; simpl in Hp; subst po.
  unfold handle_response; rewrite Hm; simpl; rewrite Hr.
  unfold from_value. destruct (status_of_json r) as [w|]; simpl; [|reflexivity].
  repeat split.
Qed.

(** X11: a [seed] response whose [result] decodes as an [EpochTemplate]
    sends exactly one [ReceivedSeed] with its epochs to a live miner, and
    does so without taking the stats lock and without changing the
    stats. *)
Theorem handle_response_seed_result (res : RpcResponse) (r : Json) (ep : EpochTemplate) (s : St)
  (Hm : res_method res = "seed") (Hr : res_result res = Some r)
  (Hd : epoch_of_json r = Some ep) (Ha : miner_alive (world s) = true) :
  let (out, s') := handle_response res s in
  out = Ok tt /\
  miner_rx (world s') = (miner_rx (world s) ++ [ReceivedSeed (seed_epochs ep)])%list /\
  stats (world s') = stats (world s) /\
  events (world s') = (events (world s) ++ [EvMinerSend (ReceivedSeed (seed_epochs ep))])%list.
Proof.
  destruct s as [c [st po al rx wr ev]]; simpl in Ha; subst al.
  unfold handle_response; rewrite Hm; simpl; rewrite Hr.
  unfold from_value; rewrite Hd; simpl.
  repeat split.
Qed.

(** *** Requests to the server *)

(** X12: while the stats lock is poisoned, asking for a job template,
    logging in (with a login configured) and submitting a share all fail
    with the lock error and change nothing, so nothing is written to the
    server; the status request takes no lock and is still written. *)
Theorem senders_poisoned_lock (h : N) (sol : Solution) (s : St)
  (Hp : poisoned (world s) = true) :
  send_message_get_job_template s = (Err (GeneralError "Failed to get lock"), s) /\
  send_message_submit h sol s = (Err (GeneralError "Failed to get lock"), s) /\
  (forall l, server_login (ctl s) = Some l -> l <> "" ->
     send_login s = (Err (GeneralError "Failed to get lock"), s)) /\
  (stream (ctl s) <> None ->
     fst (send_message_get_status s) = Ok tt /\
     wire (world (exec send_message_get_status s)) =
       (wire (world s) ++ [{| req_id := string_of_N (last_request_id (ctl s));
                              req_jsonrpc := "2.0"; req_method := "status";
                              req_params := None |}])%list).
Proof.
  destruct s as [c [st po al rx wr ev]]; simpl in Hp; subst po; simpl.
  split; [reflexivity|]. split; [reflexivity|]. split.
  - intros l Hl Hne. apply String.eqb_neq in Hne.
    unfold send_login, bind, get_ctl; simpl. rewrite Hl, Hne. reflexivity.
  - intros Hs. unfold exec, send_message_get_status, send_message, bind, get_ctl; simpl.
    destruct (stream c); [|contradiction]. split; reflexivity.
Qed.

(** X13: without a login, or with an empty one, [send_login] does
    nothing at all (no request, no lock, no stats update).  With a
    non-empty login, a stream and a healthy lock it writes exactly one
    [login] request carrying the login, the password ("" when none is
    configured) and the agent "epic-miner/v<version>", and records
    "Last Message Sent: Login". *)
Theorem send_login_behaviour (s : St) :
  (server_login (ctl s) = None \/ server_login (ctl s) = Some "" -> send_login s = (Ok tt, s)) /\
  (forall l, server_login (ctl s) = Some l -> l <> "" -> stream (ctl s) <> None ->
     poisoned (world s) = false ->
     let (out, s') := send_login s in
     out = Ok tt /\
     wire (world s') =
       (wire (world s) ++
        [{| req_id := string_of_N (last_request_id (ctl s)); req_jsonrpc := "2.0";
            req_method := "login";
            req_params := Some (JObj [("login", JStr l);
                                      ("pass", JStr (match server_password (ctl s) with
                                                     | Some pw => pw | None => "" end));
                                      ("agent", JStr (cat ["epic-miner/v"; cargo_pkg_version]))]) |}])%list /\
     last_message_sent (cstats s') = "Last Message Sent: Login").
Proof.
  destruct s as [c [st po al rx wr ev]]; simpl. split.
  - intros [Hl|Hl]; unfold send_login, bind, get_ctl; simpl; rewrite Hl; reflexivity.
  - intros l Hl Hne Hs Hp. subst po. apply String.eqb_neq in Hne.
    unfold send_login, bind, get_ctl; simpl. rewrite Hl, Hne. simpl.
    unfold send_message, bind, get_ctl; simpl.
    destruct (stream c); [|contradiction]. repeat split.
Qed.

(** X14: with a stream and a healthy lock, the senders of
    [getjobtemplate], [login] and [submit] take the stats write lock and
    drop it again BEFORE they write to the stream (the message, "\n",
    then a flush); the [status] sender takes no lock at all. *)
Theorem senders_drop_lock_before_io (h : N) (sol : Solution) (s : St)
  (Hs : stream (ctl s) <> None) (Hp : poisoned (world s) = false) :
  let nl := EvStreamWrite (String "010" EmptyString) in
  events (world (exec send_message_get_job_template s)) =
    (events (world s) ++ [EvLockAcquire; EvLockRelease; EvStreamWrite "getjobtemplate"; nl;
                          EvStreamFlush])%list /\
  events (world (exec (send_message_submit h sol) s)) =
    (events (world s) ++ [EvLockAcquire; EvLockRelease; EvStreamWrite "submit"; nl;
                          EvStreamFlush])%list /\
  (forall l, server_login (ctl s) = Some l -> l <> "" ->
     events (world (exec send_login s)) =
       (events (world s) ++ [EvLockAcquire; EvLockRelease; EvStreamWrite "login"; nl;
                             EvStreamFlush])%list) /\
  events (world (exec send_message_get_status s)) =
    (events (world s) ++ [EvStreamWrite "status"; nl; EvStreamFlush])%list.
Proof.
  destruct s as [c [st po al rx wr ev]]; simpl in Hp, Hs; subst po.
  destruct (stream c) as [strm|] eqn:Es; [|contradiction].
  unfold exec, send_message_get_job_template, send_message_submit, send_message_get_status,
    send_message, scoped_write, bind, get_ctl; simpl; rewrite Es; simpl.
  rewrite <- !app_assoc. simpl.
  split; [reflexivity|]. split; [reflexivity|]. split; [|reflexivity].
  intros l Hl Hne. apply String.eqb_neq in Hne.
  unfold send_login, bind, get_ctl; simpl. rewrite Hl, Hne. simpl.
  unfold send_message, bind, get_ctl; simpl. rewrite Es; simpl.
  rewrite <- !app_assoc. reflexivity.
Qed.

(** *** Messages from the miner *)

Lemma send_message_submit_step (h : N) (sol : Solution) (s : St) :
  stream (ctl s) <> None -> poisoned (world s) = false ->
  exists s1, send_message_submit h sol s = (Ok tt, s1) /\
    wire (world s1) = (wire (world s) ++ [submit_request (last_request_id (ctl s)) h sol])%list /\
    ctl s1 = ctl s /\ poisoned (world s1) = false /\ sstats s1 = sstats s.
Proof.
  destruct s as [c [st po al rx wr ev]]; simpl; intros Hs Hp; subst po.
  destruct (stream c) as [strm|] eqn:Es; [|contradiction].
  unfold send_message_submit, send_message, scoped_write, bind, get_ctl; simpl; rewrite Es.
  eexists; split; [reflexivity|]. repeat split.
Qed.

Lemma drain_app_found (pre post : list ClientMessage) (s : St) :
  Forall (fun m => m <> Shutdown) pre ->
  drain (pre ++ post) s = drain post (snd (drain pre s)).
Proof.
  revert s; induction pre as [|m pre IH]; intros s Hpre; simpl; [reflexivity|].
  inversion Hpre as [|? ? Hm Hrest]; subst.
  destruct m as [h sol|]; [|contradiction].
  destruct (send_message_submit h sol s) as [[u|e] s1]; apply IH; exact Hrest.
Qed.

(** X15: when [rx] holds a [Shutdown], [run] returns at it: the shares
    queued before it are submitted, every message queued after it is
    never looked at. *)
Theorem drain_stops_at_shutdown (pre post : list ClientMessage) (s : St)
  (Hpre : Forall (fun m => m <> Shutdown) pre) :
  drain (pre ++ Shutdown :: post) s = (true, snd (drain pre s)).
Proof. rewrite (drain_app_found pre (Shutdown :: post) s Hpre). reflexivity. Qed.

(** X16: with a stream and a healthy lock, draining a queue of found
    solutions writes one [submit] request per solution, in queue order,
    each stamped with the current request id; the loop goes on, the
    stream is kept and the share counters are not touched (they only
    move when the server answers). *)
Theorem drain_submits_in_order (sols : list (N * Solution)) (s : St)
  (Hs : stream (ctl s) <> None) (Hp : poisoned (world s) = false) :
  let (stop, s') := drain (map (fun '(h, sol) => FoundSolution h sol) sols) s in
  stop = false /\
  wire (world s') =
    (wire (world s) ++ map (fun '(h, sol) => submit_request (last_request_id (ctl s)) h sol) sols)%list /\
  ctl s' = ctl s /\ sstats s' = sstats s.
Proof.
  revert s Hs Hp; induction sols as [|[h sol] sols IH]; intros s Hs Hp; simpl.
  - rewrite app_nil_r. repeat split.
  - destruct (send_message_submit_step h sol s Hs Hp) as (s1 & E & Hw & Hc & Hp1 & Hst).
    rewrite E.
    assert (Hs1 : stream (ctl s1) <> None) by (rewrite Hc; exact Hs).
    specialize (IH s1 Hs1 Hp1).
    destruct (drain _ s1) as [stop s'].
    destruct IH as (-> & Hw' & Hc' & Hst').
    split; [reflexivity|].
    rewrite Hw', Hw, Hc, <- app_assoc. simpl.
    split; [reflexivity|]. split; congruence.
Qed.

(** *** The run loop *)

Ltac rel_side :=
  first [ exact same_ctl_trans | exact same_wire_trans | exact same_rx_trans
        | exact same_solution_trans | exact same_config_trans | exact counters_grow_trans
        | exact stream_ok_rel_trans | solve [auto with rel_inst] ].

Lemma finish_wd (env : Env) (s : St) nread nstatus nretry wd ls' :
  finish env s nread nstatus nretry wd = Next ls' -> was_disconnected ls' = wd.
Proof.
  unfold finish. destruct (drain (env_pending env) s) as [stop s'].
  destruct stop; intros E; inversion E; reflexivity.
Qed.

Lemma rx_finish (env : Env) (s : St) nread nstatus nretry wd ls' :
  finish env s nread nstatus nretry wd = Next ls' -> same_rx s (ls_st ls').
Proof. apply rel_finish; rel_side. Qed.

Lemma ok_finish (env : Env) (s : St) nread nstatus nretry wd ls' :
  finish env s nread nstatus nretry wd = Next ls' -> stream_ok_rel s (ls_st ls').
Proof. apply rel_finish; rel_side. Qed.

Lemma ok_after_read (env : Env) (s : St) nread nstatus nretry wd ls' :
  after_read env s nread nstatus nretry wd = Next ls' -> stream_ok_rel s (ls_st ls').
Proof. apply rel_after_read; rel_side. Qed.

Lemma stream_try_connect_shape (ce : ConnectEnv) (url : string) (tls : option bool) (strm : Stream) :
  stream_try_connect ce url tls = Connected strm ->
  (strm = PlainStream /\ tls_on tls = false) \/
  (exists h, strm = TlsStream h /\ tls_on tls = true /\ sni_host (overflow_checks ce) url = Some h).
Proof.
  unfold stream_try_connect. destruct (tcp_error ce); [discriminate|].
  destruct tls as [[|]|]; simpl.
  - destruct (connector_ok ce); simpl; [|discriminate].
    destruct (sni_host (overflow_checks ce) url) as [h|]; [|discriminate].
    unfold tls_handshake.
    destruct (handshake_ok ce h), (nonblocking_ok ce); simpl; intros E; inversion E; subst.
    right; exists h; auto.
  - destruct (nonblocking_ok ce); simpl; intros E; inversion E; auto.
  - destruct (nonblocking_ok ce); simpl; intros E; inversion E; auto.
Qed.

Lemma stream_try_connect_panic (ce : ConnectEnv) (url : string) (tls : option bool) :
  stream_try_connect ce url tls = Panicked -> tls = Some true.
Proof.
  unfold stream_try_connect. destruct (tcp_error ce); [discriminate|].
  destruct tls as [[|]|]; simpl; [reflexivity| |];
    destruct (nonblocking_ok ce); discriminate.
Qed.

(** X17: [Stream::try_connect] reports a failing TCP connect as a
    connection error carrying the OS message, whatever the TLS setting;
    it can panic only with TLS on; and the stream it opens is a plain
    TCP stream exactly when TLS is off, a TLS stream for the computed
    SNI host otherwise. *)
Theorem stream_try_connect_outcomes (ce : ConnectEnv) (url : string) (tls : option bool) :
  (forall e, tcp_error ce = Some e -> stream_try_connect ce url tls = ConnectFailed (ConnectionError e)) /\
  (stream_try_connect ce url tls = Panicked -> tls = Some true) /\
  (forall strm, stream_try_connect ce url tls = Connected strm ->
     (strm = PlainStream /\ tls <> Some true) \/
     (exists h, strm = TlsStream h /\ tls = Some true /\ sni_host (overflow_checks ce) url = Some h)).
Proof.
  split; [intros e He; unfold stream_try_connect; rewrite He; reflexivity|].
  split; [apply stream_try_connect_panic|].
  intros strm E. destruct (stream_try_connect_shape ce url tls strm E)
    as [[-> Ht]|(h & -> & Ht & Hh)].
  - left; split; [reflexivity|]. intros ->; discriminate.
  - right; exists h; split; [reflexivity|]. split; [|exact Hh].
    destruct tls as [[|]|]; [reflexivity|discriminate|discriminate].
Qed.

(** X18: in an iteration that finds no stream, the miner receives
    exactly one [StopJob] if the controller was connected at the previous
    iteration and nothing otherwise; afterwards [was_disconnected] is
    set, so a longer outage stops the miner only once. *)
Theorem iteration_disconnected_stops_miner_once (env : Env) (ls ls' : LoopSt)
  (Hs : stream (ctl (ls_st ls)) = None)
  (Ha : miner_alive (world (ls_st ls)) && negb (env_drops_miner env) = true)
  (E : iteration env ls = Next ls') :
  miner_rx (world (ls_st ls')) =
    (miner_rx (world (ls_st ls)) ++ (if was_disconnected ls then [] else [StopJob]))%list /\
  was_disconnected ls' = true.
Proof.
  unfold iteration in E.
  assert (Hc0 : stream (ctl (apply_env env (ls_st ls))) = None)
    by (destruct (ls_st ls); exact Hs).
  assert (Hr0 : miner_rx (world (apply_env env (ls_st ls))) = miner_rx (world (ls_st ls)))
    by (destruct (ls_st ls); reflexivity).
  assert (Ha0 : miner_alive (world (apply_env env (ls_st ls))) = true)
    by (destruct (ls_st ls); exact Ha).
  set (s0 := apply_env env (ls_st ls)) in *. clearbody s0.
  cbv zeta in E. rewrite Hc0 in E.
  set (s1 := if negb (was_disconnected ls) then exec (ignore send_miner_stop) s0 else s0) in E.
  assert (H1 : miner_rx (world s1) =
                 (miner_rx (world (ls_st ls)) ++ (if was_disconnected ls then [] else [StopJob]))%list).
  { unfold s1; destruct (was_disconnected ls); simpl.
    - rewrite app_nil_r; exact Hr0.
    - destruct s0 as [c0 [st0 p0 al0 rx0 wr0 ev0]]; simpl in *; subst; reflexivity. }
  clearbody s1.
  destruct (Z.gtb _ _).
  - destruct (stream_try_connect _ _ _) as [strm| e |]; [| |discriminate].
    + destruct (poisoned _); [discriminate|].
      split; [|exact (finish_wd _ _ _ _ _ _ _ E)].
      rewrite (rx_finish _ _ _ _ _ _ _ E).
      assert (Hsc : rel_step same_rx (scoped_write (modify_client
                      (set_connection_status (cat ["Connection Status: Connected to Epic server at ";
                                                   server_url (ctl s0); "."])))))
        by (apply rel_connected_status; rel_side).
      unfold exec. rewrite (Hsc _). exact H1.
    + destruct (poisoned _); [discriminate|].
      inversion E; subst; simpl. split; [|reflexivity].
      assert (Hsc : forall st, rel_step same_rx (scoped_write (modify_client (set_connection_status st) ;;;
                                          modify_client (set_connected false) ;;; set_stream None)))
        by (intros; apply rel_connect_failed; rel_side).
      unfold exec. rewrite (Hsc _ _). exact H1.
  - split; [|exact (finish_wd _ _ _ _ _ _ _ E)].
    rewrite (rx_finish _ _ _ _ _ _ _ E). exact H1.
Qed.

Lemma exec_ignore_seq {A B} (a : M A) (b : M B) (s : St) :
  exec (ignore a ;;; ignore b) s = exec b (exec a s).
Proof. reflexivity. Qed.

Lemma send_login_step (s : St) :
  stream (ctl s) <> None -> poisoned (world s) = false ->
  map req_method (wire (world (exec send_login s))) =
    (map req_method (wire (world s)) ++
     match server_login (ctl s) with
     | Some l => if String.eqb l "" then [] else ["login"]
     | None => []
     end)%list /\
  ctl (exec send_login s) = ctl s /\ poisoned (world (exec send_login s)) = false.
Proof.
  destruct s as [c [st po al rx wr ev]]; simpl; intros Hs Hp; subst po.
  destruct (stream c) as [strm|] eqn:Es; [|contradiction].
  unfold exec, send_login, bind, get_ctl; simpl.
  destruct (server_login c) as [l|]; simpl; [|rewrite app_nil_r; auto].
  destruct (String.eqb l ""); simpl; [rewrite app_nil_r; auto|].
  unfold send_message, scoped_write, bind, get_ctl; simpl. rewrite Es; simpl.
  rewrite map_app. auto.
Qed.

Lemma send_message_get_job_template_step (s : St) :
  stream (ctl s) <> None -> poisoned (world s) = false ->
  map req_method (wire (world (exec send_message_get_job_template s))) =
    (map req_method (wire (world s)) ++ ["getjobtemplate"])%list /\
  ctl (exec send_message_get_job_template s) = ctl s /\
  poisoned (world (exec send_message_get_job_template s)) = false.
Proof.
  destruct s as [c [st po al rx wr ev]]; simpl; intros Hs Hp; subst po.
  destruct (stream c) as [strm|] eqn:Es; [|contradiction].
  unfold exec, send_message_get_job_template, send_message, scoped_write, bind, get_ctl; simpl.
  rewrite Es; simpl. rewrite map_app. auto.
Qed.

Lemma send_message_submit_only_submits (h : N) (sol : Solution) (s : St) :
  exists rest, Forall (fun m => m = "submit") rest /\
    map req_method (wire (world (exec (send_message_submit h sol) s))) =
      (map req_method (wire (world s)) ++ rest)%list.
Proof.
  destruct s as [c [st po al rx wr ev]].
  destruct po.
  - exists []; split; [constructor|].
    unfold exec, send_message_submit, scoped_write, bind, get_ctl, lock_write; simpl.
    rewrite app_nil_r; reflexivity.
  - destruct (stream c) as [strm|] eqn:Es.
    + exists ["submit"]; split; [repeat constructor|].
      unfold exec, send_message_submit, send_message, scoped_write, bind, get_ctl; simpl.
      rewrite Es; simpl. rewrite map_app. reflexivity.
    + exists []; split; [constructor|].
      unfold exec, send_message_submit, send_message, scoped_write, bind, get_ctl; simpl.
      rewrite Es; simpl. rewrite app_nil_r; reflexivity.
Qed.

Lemma drain_only_submits (msgs : list ClientMessage) (s : St) :
  exists rest, Forall (fun m => m = "submit") rest /\
    map req_method (wire (world (snd (drain msgs s)))) =
      (map req_method (wire (world s)) ++ rest)%list.
Proof.
  revert s; induction msgs as [|m msgs IH]; intros s; simpl.
  - exists []; split; [constructor|]. rewrite app_nil_r; reflexivity.
  - destruct m as [h sol|]; [|exists []; split; [constructor|rewrite app_nil_r; reflexivity]].
    destruct (send_message_submit_only_submits h sol s) as (r1 & Hf1 & Hw1).
    unfold exec in Hw1.
    destruct (send_message_submit h sol s) as [r s1]; simpl in Hw1.
    set (s2 := match r with Ok _ => s1 | Err _ => exec (set_stream None) s1 end).
    assert (Hw2 : wire (world s2) = wire (world s1)) by (unfold s2; destruct r; reflexivity).
    destruct (IH s2) as (r2 & Hf2 & Hw3).
    exists (r1 ++ r2)%list; split; [apply Forall_app; split; assumption|].
    rewrite Hw3, Hw2, Hw1, app_assoc. reflexivity.
Qed.

(** X19: in an iteration that finds a stream, with a healthy lock and
    neither a read nor a status request due, the requests written begin
    with exactly the connection handshake when the controller was
    disconnected before ([login] when a non-empty login is configured,
    then [getjobtemplate]) and with nothing otherwise; everything written
    after that is a [submit] for a solution drained from the miner's
    queue.  Afterwards [was_disconnected] is cleared, so the handshake is
    sent once per connection. *)
Theorem iteration_handshake_once (env : Env) (ls : LoopSt)
  (Hs : stream (ctl (ls_st ls)) <> None)
  (Hp : poisoned (world (ls_st ls)) || env_poisons env = false)
  (Hr : Z.gtb (t_read_check env) (next_server_read ls) = false)
  (Hst : Z.gtb (t_status_check env) (next_status_request ls) = false) :
  match iteration env ls with
  | Next ls' | Returned ls' =>
      (exists rest, Forall (fun m => m = "submit") rest /\
         map req_method (wire (world (ls_st ls'))) =
           (map req_method (wire (world (ls_st ls))) ++
            (if was_disconnected ls then handshake_methods (ctl (ls_st ls)) else []) ++ rest)%list) /\
      was_disconnected ls' = false
  | Panic => False
  end.
Proof.
  unfold iteration. cbv zeta.
  assert (Hc0 : ctl (apply_env env (ls_st ls)) = ctl (ls_st ls)) by (destruct (ls_st ls); reflexivity).
  assert (Hw0 : wire (world (apply_env env (ls_st ls))) = wire (world (ls_st ls)))
    by (destruct (ls_st ls); reflexivity).
  assert (Hp0 : poisoned (world (apply_env env (ls_st ls))) = false)
    by (destruct (ls_st ls); exact Hp).
  set (s0 := apply_env env (ls_st ls)) in *. clearbody s0.
  rewrite Hc0. destruct (stream (ctl (ls_st ls))) as [strm|] eqn:Es; [|contradiction].
  set (s1 := if was_disconnected ls
             then exec (ignore send_login ;;; ignore send_message_get_job_template) s0 else s0).
  assert (H1 : map req_method (wire (world s1)) =
                 (map req_method (wire (world (ls_st ls))) ++
                  (if was_disconnected ls then handshake_methods (ctl (ls_st ls)) else []))%list).
  { unfold s1; destruct (was_disconnected ls); [|rewrite app_nil_r, Hw0; reflexivity].
    rewrite exec_ignore_seq.
    assert (Hs0 : stream (ctl s0) <> None) by (rewrite Hc0, Es; discriminate).
    destruct (send_login_step s0 Hs0 Hp0) as (Hwl & Hcl & Hpl).
    rewrite Hc0 in Hwl.
    assert (Hs1 : stream (ctl (exec send_login s0)) <> None) by (rewrite Hcl; exact Hs0).
    destruct (send_message_get_job_template_step _ Hs1 Hpl) as (Hwj & _ & _).
    rewrite Hwj, Hwl, Hw0. unfold handshake_methods. rewrite <- app_assoc. reflexivity. }
  clearbody s1.
  rewrite Hr. unfold after_read. rewrite Hst. unfold finish.
  destruct (drain_only_submits (env_pending env) s1) as (rest & Hf & Hw).
  destruct (drain (env_pending env) s1) as [stop s']; simpl in Hw.
  destruct stop; simpl;
    (split; [exists rest; split; [exact Hf|rewrite Hw, H1, <- app_assoc; reflexivity]|reflexivity]).
Qed.

Lemma ctl_handshake (s : St) :
  ctl (exec (ignore send_login ;;; ignore send_message_get_job_template) s) = ctl s.
Proof.
  assert (H : rel_step same_ctl (ignore send_login ;;; ignore send_message_get_job_template))
    by (apply rel_handshake; rel_side).
  exact (H s).
Qed.

(** X20: when the read is due and [read_line] gives an empty line or an
    I/O error other than [WouldBlock], the iteration drops the stream
    (so the next one reports the disconnection and reconnects), keeps
    the read deadline, and does not go on to the status request or the
    miner's queue in that iteration. *)
Theorem iteration_read_error_drops_stream (env : Env) (ls : LoopSt)
  (Hs : stream (ctl (ls_st ls)) <> None)
  (Hr : Z.gtb (t_read_check env) (next_server_read ls) = true)
  (He : env_read env = ReadOk "" \/ exists k, env_read env = ReadErr k /\ k <> WouldBlock) :
  match iteration env ls with
  | Next ls' =>
      stream (ctl (ls_st ls')) = None /\ next_server_read ls' = next_server_read ls /\
      next_status_request ls' = next_status_request ls /\ was_disconnected ls' = false /\
      wire (world (ls_st ls')) =
        wire (world (if was_disconnected ls
                     then exec (ignore send_login ;;; ignore send_message_get_job_template)
                            (apply_env env (ls_st ls))
                     else apply_env env (ls_st ls)))
  | _ => False
  end.
Proof.
  unfold iteration.
  assert (Hc0 : ctl (apply_env env (ls_st ls)) = ctl (ls_st ls)) by (destruct (ls_st ls); reflexivity).
  set (s0 := apply_env env (ls_st ls)) in *. clearbody s0.
  cbv zeta. rewrite Hc0.
  destruct (stream (ctl (ls_st ls))) as [strm|] eqn:Es; [|contradiction].
  set (s1 := if was_disconnected ls
             then exec (ignore send_login ;;; ignore send_message_get_job_template) s0 else s0).
  assert (Hc1 : ctl s1 = ctl (ls_st ls)).
  { unfold s1; destruct (was_disconnected ls); [rewrite ctl_handshake|]; exact Hc0. }
  clearbody s1. rewrite Hr.
  unfold read_message, bind, get_ctl at 1. rewrite Hc1, Es.
  unfold log_event; simpl.
  destruct He as [->|(k & -> & Hk)]; simpl.
  - repeat split.
  - destruct k; try contradiction; simpl; repeat split.
Qed.

Lemma stream_ok_iteration (env : Env) (ls ls' : LoopSt) :
  stream_ok (ctl (ls_st ls)) = true -> iteration env ls = Next ls' ->
  stream_ok (ctl (ls_st ls')) = true.
Proof.
  intros H. unfold iteration.
  assert (H0 : stream_ok (ctl (apply_env env (ls_st ls))) = true) by (destruct (ls_st ls); exact H).
  assert (Ht0 : server_tls_enabled (ctl (apply_env env (ls_st ls))) =
                server_tls_enabled (ctl (ls_st ls))) by (destruct (ls_st ls); reflexivity).
  set (s0 := apply_env env (ls_st ls)) in *. clearbody s0. cbv zeta.
  destruct (stream (ctl s0)) as [strm|] eqn:Es0.
  - set (s1 := if was_disconnected ls
               then exec (ignore send_login ;;; ignore send_message_get_job_template) s0 else s0).
    assert (H1 : stream_ok (ctl s1) = true).
    { unfold s1; destruct (was_disconnected ls); [|exact H0].
      assert (Hb : rel_step stream_ok_rel (ignore send_login ;;; ignore send_message_get_job_template))
        by (apply rel_handshake; rel_side).
      exact (Hb s0 H0). }
    clearbody s1.
    destruct (Z.gtb _ _); [|intros E; exact (ok_after_read _ _ _ _ _ _ _ E H1)].
    assert (Hr : rel_step stream_ok_rel (read_message (env_read env)))
      by (apply rel_read_message; rel_side).
    pose proof (Hr s1 H1) as H2.
    destruct (read_message (env_read env) s1) as [[[m|]|e] s2]; simpl in H2.
    + destruct (poisoned (world s2)); [discriminate|].
      assert (Hm : rel_step stream_ok_rel (mark_received (ctl_algorithm (ctl s0))))
        by (apply rel_mark_received; rel_side).
      pose proof (Hm s2 H2) as H3. unfold exec.
      destruct (classify m) as [|[r|]|[r|]]; intros E.
      * exact (ok_after_read _ _ _ _ _ _ _ E H3).
      * inversion E; subst; simpl.
        assert (Hh : rel_step stream_ok_rel (handle_request r))
          by (apply rel_handle_request; rel_side).
        exact (Hh _ H3).
      * inversion E; subst; exact H3.
      * inversion E; subst; simpl.
        assert (Hh : rel_step stream_ok_rel (handle_response r))
          by (apply rel_handle_response; rel_side).
        exact (Hh _ H3).
      * inversion E; subst; exact H3.
    + intros E; exact (ok_after_read _ _ _ _ _ _ _ E H2).
    + intros E; inversion E; subst; reflexivity.
  - set (s1 := if negb (was_disconnected ls) then exec (ignore send_miner_stop) s0 else s0).
    assert (Ht1 : server_tls_enabled (ctl s1) = server_tls_enabled (ctl s0)).
    { unfold s1; destruct (negb _); [|reflexivity].
      destruct s0 as [c0 [st0 p0 al0 rx0 wr0 ev0]]; unfold exec, ignore, send_miner_stop,
        miner_send, bind, log_event; simpl; destruct al0; reflexivity. }
    assert (H1 : stream_ok (ctl s1) = true).
    { unfold s1; destruct (negb _); [|exact H0].
      exact (stream_ok_rel_send StopJob s0 H0). }
    clearbody s1.
    destruct (Z.gtb _ _); [|intros E; exact (ok_finish _ _ _ _ _ _ _ E H1)].
    destruct (stream_try_connect _ _ _) as [strm| e |] eqn:Ec; [| |discriminate].
    + destruct (poisoned _); [discriminate|].
      intros E. apply (ok_finish _ _ _ _ _ _ _ E).
      assert (Hsc : forall st, rel_step stream_ok_rel (scoped_write (modify_client st)))
        by (intros; apply rel_connected_status; rel_side).
      apply Hsc.
      apply stream_try_connect_shape in Ec.
      destruct s1 as [c1 w1]; simpl in *. unfold stream_ok; simpl. rewrite Ht1.
      destruct Ec as [[-> Ht]|(h & -> & Ht & _)]; rewrite Ht; reflexivity.
    + destruct (poisoned _) eqn:Ep; [discriminate|].
      intros E; inversion E; subst; simpl.
      destruct s1 as [c1 [st1 p1 al1 rx1 wr1 ev1]]; simpl in *; subst p1.
      reflexivity.
Qed.

(** X21: in every state [run] reaches from [Controller::new], the
    controller holds no half-built [Stream] (one with neither a TCP nor a
    TLS stream, whose [Read] and [Write] would unwrap [None]), and the
    stream it holds is a TLS stream exactly when [server_tls_enabled] is
    [Some(true)]. *)
Theorem reachable_stream_ok (ls : LoopSt) (H : reachable ls) :
  stream_ok (ctl (ls_st ls)) = true.
Proof.
  induction H as [a url login password tls st0 t0|ls env ls' _ IH E].
  - reflexivity.
  - exact (stream_ok_iteration env ls ls' IH E).
Qed.

(** X22: across any number of iterations of [run], the controller's
    configuration (algorithm, server URL, login, password, TLS setting,
    request counter) never changes; only its stream does. *)
Theorem run_steps_config_fixed (envs : list Env) (ls ls' : LoopSt)
  (H : run_steps envs ls = Some ls') :
  config_of (ctl (ls_st ls')) = config_of (ctl (ls_st ls)).
Proof.
  refine (rel_run_steps same_config _ _ _ _ _ _ _ _ _ _ _ _ _ envs ls ls' H);
    rel_side.
Qed.

(** X23: across any number of iterations of [run], none of the share
    counters (accepted, rejected, stale, blocks found) ever decreases. *)
Theorem run_steps_counters_monotone (envs : list Env) (ls ls' : LoopSt)
  (H : run_steps envs ls = Some ls') :
  counters_le (sstats (ls_st ls)) (sstats (ls_st ls')).
Proof.
  refine (rel_run_steps counters_grow _ _ _ _ _ _ _ _ _ _ _ _ _ envs ls ls' H);
    rel_side.
Qed.

End ControllerOps.

(** ** Concrete runs *)

(** C1 (code bug): a [job] request for the controller's own algorithm
    whose difficulty list names an algorithm the controller does not know
    before its own one: [send_miner_job] sends the seed, then the [?] on
    [get_parse_algorithm] aborts the difficulty loop, and the miner never
    receives a [ReceivedJob]. *)
Theorem job_with_unknown_difficulty_name_gets_no_job :
  algorithm (match sample_job_of_json sample_job_params with
             | Some j => j | None => s1_job end) = "cuckoo" /\
  fst (handle_request sample_job_of_json job_request_unknown_name sample_state) =
    Err (RequestError "Algorithm isn't supported!") /\
  miner_rx (world (snd (handle_request sample_job_of_json job_request_unknown_name sample_state))) =
    [ReceivedSeed (JArr [])].
Proof. vm_compute. repeat split. Qed.

(** C4 (counterexample): in scenario S1 the miner receives [ReceivedSeed]
    first and [ReceivedJob] second, not the other way round. *)
Theorem s1_seed_before_job :
  let rx := miner_rx (world (exec (handle_response sample_json_to_string sample_job_of_json
                                     sample_epoch_of_json sample_status_of_json
                                     sample_debug_response s1_job_response) sample_state)) in
  rx = [ReceivedSeed (JArr []); ReceivedJob 100 42 7 "00ff"] /\
  ~ (exists h i d p e, rx = [ReceivedJob h i d p; ReceivedSeed e]).
Proof.
  vm_compute. split; [reflexivity|].
  intros (h & i & d & p & e & E). discriminate E.
Qed.

(** C5 (counterexample): connect, read a refused login, read a keepalive
    answer: the stats then say "Server requires login" and
    [connected = true]. *)
Theorem login_status_not_invariant :
  ~ (forall ls, reachable sample_json_to_string sample_job_of_json sample_epoch_of_json
                  sample_status_of_json sample_debug_response "1.0.0" sample_classify ls ->
        contains (connection_status (cstats (ls_st ls))) "Server requires login" = true ->
        connected (cstats (ls_st ls)) = false).
Proof.
  intros H.
  pose proof (fun ls' => run_steps_reachable sample_json_to_string sample_job_of_json
                sample_epoch_of_json sample_status_of_json sample_debug_response "1.0.0"
                sample_classify login_trace_envs _ ls'
                (reach_init sample_json_to_string sample_job_of_json sample_epoch_of_json
                   sample_status_of_json sample_debug_response "1.0.0" sample_classify
                   Cuckoo "pool.example.com:3333" (Some "alice") None None sample_stats 0))
    as R.
  destruct (run_steps _ _ _ _ _ _ _ login_trace_envs _) as [ls|] eqn:E;
    [|vm_compute in E; discriminate E].
  specialize (H ls (R ls eq_refl)).
  vm_compute in E. injection E as <-.
  vm_compute in H. discriminate (H eq_refl).
Qed.

(** C6 (code bug): a request whose method is not [job] is refused with
    the text "Unknonw method", not "Unknown method"; nothing else
    happens. *)
Theorem other_method_error_text :
  handle_request sample_job_of_json status_request sample_state =
    (Err (RequestError "Unknonw method"), sample_state) /\
  RequestError "Unknonw method" <> RequestError "Unknown method".
Proof. split; [reflexivity | discriminate]. Qed.

(** C8 (code bug): [send_miner_job] sends [ReceivedJob] on the miner
    channel while the stats write guard taken just before is still
    held. *)
Theorem send_miner_job_sends_under_lock :
  events (world (exec (send_miner_job s1_job) sample_state)) =
    [EvMinerSend (ReceivedSeed (JArr [])); EvLockAcquire;
     EvMinerSend (ReceivedJob 100 42 7 "00ff"); EvLockRelease] /\
  io_under_lock (events (world (exec (send_miner_job s1_job) sample_state))) = true.
Proof. vm_compute. split; reflexivity. Qed.

(** ** Witnesses *)

Lemma handle_response_submit_result_witness :
  res_method blockfound_response = "submit" /\
  res_result blockfound_response = Some (JStr "blockfound") /\
  poisoned (world sample_state) = false /\
  (let (out, s') := handle_response sample_json_to_string sample_job_of_json sample_epoch_of_json
                      sample_status_of_json sample_debug_response blockfound_response sample_state in
   out = Ok tt /\
   num_shares_accepted (sstats s') = (num_shares_accepted (sstats sample_state) + 1)%N /\
   num_blocks_found (sstats s') =
     (num_blocks_found (sstats sample_state) +
      if contains (sample_json_to_string (JStr "blockfound")) "blockfound" then 1 else 0)%N /\
   num_rejected (sstats s') = num_rejected (sstats sample_state) /\
   num_staled (sstats s') = num_staled (sstats sample_state)).
Proof.
  split; [reflexivity|]. split; [reflexivity|]. split; [reflexivity|].
  apply handle_response_submit_result; reflexivity.
Defined.

Lemma handle_response_submit_error_witness :
  res_method too_late_response = "submit" /\
  res_result too_late_response = None /\
  poisoned (world sample_state) = false /\
  (let msg := message (error_or_invalid too_late_response) in
   let (out, s') := handle_response sample_json_to_string sample_job_of_json sample_epoch_of_json
                      sample_status_of_json sample_debug_response too_late_response sample_state in
   out = Ok tt /\
   num_staled (sstats s') =
     (num_staled (sstats sample_state) + if contains msg "too late" then 1 else 0)%N /\
   num_rejected (sstats s') =
     (num_rejected (sstats sample_state) + if contains msg "too late" then 0 else 1)%N /\
   num_shares_accepted (sstats s') = num_shares_accepted (sstats sample_state) /\
   num_blocks_found (sstats s') = num_blocks_found (sstats sample_state) /\
   (res_error too_late_response = None ->
    num_rejected (sstats s') = (num_rejected (sstats sample_state) + 1)%N)).
Proof.
  split; [reflexivity|]. split; [reflexivity|]. split; [reflexivity|].
  apply handle_response_submit_error; reflexivity.
Defined.

Lemma try_connect_tls_sni_witness :
  tcp_error sample_connect_env = None /\
  connector_ok sample_connect_env = true /\
  (forall pre a b, split_char "." (host_portion "pool.example.com:3333") = (pre ++ [a; b])%list ->
     stream_try_connect sample_connect_env "pool.example.com:3333" (Some true) =
       tls_handshake sample_connect_env (cat [a; "."; b])) /\
  (contains (host_portion "pool.example.com:3333") "." = false ->
     stream_try_connect sample_connect_env "pool.example.com:3333" (Some true) = Panicked).
Proof.
  split; [reflexivity|]. split; [reflexivity|].
  apply (try_connect_tls_sni sample_connect_env "pool.example.com:3333"); reflexivity.
Defined.

Lemma reachable_request_ids_witness :
  reachable sample_json_to_string sample_job_of_json sample_epoch_of_json
    sample_status_of_json sample_debug_response "1.0.0" sample_classify
    (run_init (controller_new Cuckoo "pool.example.com:3333" (Some "alice") None None)
       sample_stats 0) /\
  last_request_id (ctl (ls_st (run_init (controller_new Cuckoo "pool.example.com:3333"
                                           (Some "alice") None None) sample_stats 0))) = 0%N /\
  Forall (fun r => req_id r = "0")
    (wire (world (ls_st (run_init (controller_new Cuckoo "pool.example.com:3333"
                                     (Some "alice") None None) sample_stats 0)))).
Proof.
  assert (H : reachable sample_json_to_string sample_job_of_json sample_epoch_of_json
                sample_status_of_json sample_debug_response "1.0.0" sample_classify
                (run_init (controller_new Cuckoo "pool.example.com:3333" (Some "alice") None None)
                   sample_stats 0)) by apply reach_init.
  split; [exact H|].
  exact (reachable_request_ids _ _ _ _ _ _ _ _ H).
Defined.

Lemma login_error_then_frame_witness :
  res_method login_error_response = "login" /\
  res_result login_error_response = None /\
  poisoned (world sample_state) = false /\
  (let s1 := exec (handle_response sample_json_to_string sample_job_of_json sample_epoch_of_json
                     sample_status_of_json sample_debug_response login_error_response)
                  sample_state in
   let s2 := exec (mark_received Cuckoo) s1 in
   connected (cstats s1) = false /\
   connection_status (cstats s1) = "Connection Status: Server requires login" /\
   connected (cstats s2) = true /\
   connection_status (cstats s2) = connection_status (cstats s1)).
Proof.
  split; [reflexivity|]. split; [reflexivity|]. split; [reflexivity|].
  apply login_error_then_frame; reflexivity.
Defined.

(** ** Witnesses of the further properties *)

Ltac wit :=
  first [ reflexivity | discriminate | (left; reflexivity) | (right; reflexivity)
        | (vm_compute; reflexivity) | (vm_compute; discriminate) ].

Lemma handle_request_other_algorithm_witness :
  let (out, s') := handle_request sample_job_of_json other_algorithm_request sample_state in
  out = Ok tt /\ miner_rx (world s') = (miner_rx (world sample_state) ++ [StopJob])%list /\
  stats (world s') = stats (world sample_state) /\ wire (world s') = wire (world sample_state).
Proof.
  refine (handle_request_other_algorithm sample_job_of_json other_algorithm_request
            other_algorithm_job_params
            {| height := 7; job_id := 3; pre_pow := "aa"; algorithm := "randomx";
               difficulty := [("randomx", 11%N)]; block_difficulty := [];
               epochs := JArr [] |} sample_state _ _ _ _ _); wit.
Defined.

Lemma counters_change_only_on_submit_witness :
  sstats (exec (handle_request sample_job_of_json other_algorithm_request) sample_state) =
    sstats sample_state /\
  sstats (exec (handle_response sample_json_to_string sample_job_of_json sample_epoch_of_json sample_status_of_json sample_debug_response keepalive_ok_response) sample_state) = sstats sample_state.
Proof. apply counters_change_only_on_submit; wit. Defined.

Lemma miner_untouched_by_other_responses_witness :
  miner_rx (world (exec (handle_response sample_json_to_string sample_job_of_json sample_epoch_of_json sample_status_of_json sample_debug_response status_response) sample_state)) =
    miner_rx (world sample_state).
Proof. apply miner_untouched_by_other_responses; wit. Defined.

Lemma handlers_poisoned_keep_stats_witness :
  stats (world (exec (handle_request sample_job_of_json other_algorithm_request) poisoned_state)) =
    stats (world poisoned_state) /\
  stats (world (exec (handle_response sample_json_to_string sample_job_of_json sample_epoch_of_json sample_status_of_json sample_debug_response s1_job_response) poisoned_state)) =
    stats (world poisoned_state).
Proof. apply handlers_poisoned_keep_stats; wit. Defined.

Lemma handle_response_ok_keepalive_login_witness :
  handle_response sample_json_to_string sample_job_of_json sample_epoch_of_json sample_status_of_json sample_debug_response keepalive_ok_response sample_state = (Ok tt, sample_state).
Proof. refine (handle_response_ok_keepalive_login _ _ _ _ _ _ (JStr "ok") _ _ _); wit. Defined.

Lemma handle_response_status_result_witness :
  let (out, s') := handle_response sample_json_to_string sample_job_of_json sample_epoch_of_json sample_status_of_json sample_debug_response status_response sample_state in
  out = Ok tt /\
  last_message_received (cstats s') = "Last Message Received: Accepted: 3, Rejected: 1, Stale: 0" /\
  sstats s' = sstats sample_state /\ connected (cstats s') = connected (cstats sample_state) /\
  connection_status (cstats s') = connection_status (cstats sample_state).
Proof.
  pose proof (handle_response_status_result sample_json_to_string sample_job_of_json sample_epoch_of_json sample_status_of_json sample_debug_response status_response
                (JObj [("id", JStr "w1"); ("height", JNum 100); ("difficulty", JNum 7);
                       ("accepted", JNum 3); ("rejected", JNum 1); ("stale", JNum 0)])
                sample_state eq_refl eq_refl eq_refl) as T.
  exact T.
Defined.

Lemma handle_response_seed_result_witness :
  let (out, s') := handle_response sample_json_to_string sample_job_of_json sample_epoch_of_json sample_status_of_json sample_debug_response seed_response sample_state in
  out = Ok tt /\
  miner_rx (world s') = (miner_rx (world sample_state) ++ [ReceivedSeed (JArr [JNum 1])])%list /\
  stats (world s') = stats (world sample_state) /\
  events (world s') = (events (world sample_state) ++ [EvMinerSend (ReceivedSeed (JArr [JNum 1]))])%list.
Proof.
  exact (handle_response_seed_result sample_json_to_string sample_job_of_json sample_epoch_of_json sample_status_of_json sample_debug_response seed_response (JObj [("epochs", JArr [JNum 1])])
           {| seed_epochs := JArr [JNum 1] |} sample_state eq_refl eq_refl eq_refl eq_refl).
Defined.

Lemma senders_poisoned_lock_witness :
  send_message_get_job_template poisoned_state = (Err (GeneralError "Failed to get lock"), poisoned_state) /\
  send_message_submit 100 sample_solution poisoned_state =
    (Err (GeneralError "Failed to get lock"), poisoned_state) /\
  (forall l, server_login (ctl poisoned_state) = Some l -> l <> "" ->
     send_login "1.0.0" poisoned_state = (Err (GeneralError "Failed to get lock"), poisoned_state)) /\
  (stream (ctl poisoned_state) <> None ->
     fst (send_message_get_status poisoned_state) = Ok tt /\
     wire (world (exec send_message_get_status poisoned_state)) =
       (wire (world poisoned_state) ++ [{| req_id := "0";
                              req_jsonrpc := "2.0"; req_method := "status";
                              req_params := None |}])%list).
Proof. apply senders_poisoned_lock; wit. Defined.

Lemma senders_drop_lock_before_io_witness :
  let nl := EvStreamWrite (String "010" EmptyString) in
  events (world (exec send_message_get_job_template sample_state)) =
    [EvLockAcquire; EvLockRelease; EvStreamWrite "getjobtemplate"; nl; EvStreamFlush] /\
  events (world (exec (send_message_submit 100 sample_solution) sample_state)) =
    [EvLockAcquire; EvLockRelease; EvStreamWrite "submit"; nl; EvStreamFlush] /\
  (forall l, server_login (ctl sample_state) = Some l -> l <> "" ->
     events (world (exec (send_login "1.0.0") sample_state)) =
       [EvLockAcquire; EvLockRelease; EvStreamWrite "login"; nl; EvStreamFlush]) /\
  events (world (exec send_message_get_status sample_state)) =
    [EvStreamWrite "status"; nl; EvStreamFlush].
Proof. apply senders_drop_lock_before_io; wit. Defined.

Lemma drain_stops_at_shutdown_witness :
  drain [FoundSolution 100 sample_solution; Shutdown; FoundSolution 101 sample_solution]
    sample_state =
  (true, snd (drain [FoundSolution 100 sample_solution] sample_state)).
Proof.
  apply (drain_stops_at_shutdown [FoundSolution 100 sample_solution]
           [FoundSolution 101 sample_solution]).
  repeat constructor; discriminate.
Defined.

Lemma drain_submits_in_order_witness :
  let (stop, s') := drain (map (fun '(h, sol) => FoundSolution h sol)
                                     [(100%N, sample_solution); (101%N, sample_solution)]) sample_state in
  stop = false /\
  wire (world s') = [submit_request 0 100 sample_solution; submit_request 0 101 sample_solution] /\
  ctl s' = ctl sample_state /\ sstats s' = sstats sample_state.
Proof. apply drain_submits_in_order; wit. Defined.

Lemma iteration_disconnected_stops_miner_once_witness :
  exists ls',
    iteration sample_json_to_string sample_job_of_json sample_epoch_of_json sample_status_of_json sample_debug_response "1.0.0" sample_classify (env_at 0 (ReadErr WouldBlock)) (mk_loop offline_state 0 0 0 false) = Next ls' /\
    miner_rx (world (ls_st ls')) = [StopJob] /\ was_disconnected ls' = true.
Proof.
  eexists; split; [vm_compute; reflexivity|].
  apply (iteration_disconnected_stops_miner_once sample_json_to_string sample_job_of_json sample_epoch_of_json sample_status_of_json sample_debug_response "1.0.0" sample_classify (env_at 0 (ReadErr WouldBlock))
           (mk_loop offline_state 0 0 0 false)); [reflexivity|reflexivity|vm_compute; reflexivity].
Defined.

Lemma iteration_handshake_once_witness :
  match iteration sample_json_to_string sample_job_of_json sample_epoch_of_json
          sample_status_of_json sample_debug_response "1.0.0" sample_classify
          {| env_poisons := false; env_drops_miner := false;
             t_retry_check := 0; t_retry_set := 0; t_read_check := 0; t_read_set := 0;
             t_status_check := 0; t_status_set := 0; env_connect := sample_connect_env;
             env_read := ReadErr WouldBlock;
             env_pending := [FoundSolution 100 sample_solution] |}
          (mk_loop sample_state 5 5 5 true) with
  | Next ls' | Returned ls' =>
      (exists rest, Forall (fun m => m = "submit") rest /\
         map req_method (wire (world (ls_st ls'))) = (["login"; "getjobtemplate"] ++ rest)%list) /\
      was_disconnected ls' = false
  | Panic => False
  end.
Proof.
  apply (iteration_handshake_once sample_json_to_string sample_job_of_json sample_epoch_of_json
           sample_status_of_json sample_debug_response "1.0.0" sample_classify); wit.
Defined.

Lemma iteration_read_error_drops_stream_witness :
  match iteration sample_json_to_string sample_job_of_json sample_epoch_of_json sample_status_of_json sample_debug_response "1.0.0" sample_classify (env_at 1 (ReadErr ConnectionReset)) (mk_loop sample_state 0 0 0 false) with
  | Next ls' =>
      stream (ctl (ls_st ls')) = None /\ next_server_read ls' = 0%Z /\
      next_status_request ls' = 0%Z /\ was_disconnected ls' = false /\
      wire (world (ls_st ls')) = []
  | _ => False
  end.
Proof.
  apply (iteration_read_error_drops_stream sample_json_to_string sample_job_of_json sample_epoch_of_json sample_status_of_json sample_debug_response "1.0.0" sample_classify); [discriminate|reflexivity|].
  right; exists ConnectionReset; split; [reflexivity|discriminate].
Defined.

Lemma reachable_stream_ok_witness :
  stream_ok (ctl (ls_st (run_init (controller_new Cuckoo "pool.example.com:3333"
                                     (Some "alice") None (Some true)) sample_stats 0))) = true.
Proof. apply (reachable_stream_ok sample_json_to_string sample_job_of_json sample_epoch_of_json sample_status_of_json sample_debug_response "1.0.0" sample_classify). apply reach_init. Defined.

Lemma run_steps_config_fixed_witness :
  exists ls',
    run_steps sample_json_to_string sample_job_of_json sample_epoch_of_json sample_status_of_json sample_debug_response "1.0.0" sample_classify login_trace_envs
      (run_init (controller_new Cuckoo "pool.example.com:3333" (Some "alice") None None)
         sample_stats 0) = Some ls' /\
    config_of (ctl (ls_st ls')) =
      config_of (ctl (ls_st (run_init (controller_new Cuckoo "pool.example.com:3333"
                                         (Some "alice") None None) sample_stats 0))).
Proof.
  eexists; split; [vm_compute; reflexivity|].
  apply (run_steps_config_fixed sample_json_to_string sample_job_of_json sample_epoch_of_json sample_status_of_json sample_debug_response "1.0.0" sample_classify login_trace_envs); vm_compute; reflexivity.
Defined.

Lemma run_steps_counters_monotone_witness :
  exists ls',
    run_steps sample_json_to_string sample_job_of_json sample_epoch_of_json sample_status_of_json sample_debug_response "1.0.0" sample_classify login_trace_envs
      (run_init (controller_new Cuckoo "pool.example.com:3333" (Some "alice") None None)
         sample_stats 0) = Some ls' /\
    counters_le (sstats (ls_st (run_init (controller_new Cuckoo "pool.example.com:3333"
                                            (Some "alice") None None) sample_stats 0)))
                (sstats (ls_st ls')).
Proof.
  eexists; split; [vm_compute; reflexivity|].
  apply (run_steps_counters_monotone sample_json_to_string sample_job_of_json sample_epoch_of_json sample_status_of_json sample_debug_response "1.0.0" sample_classify login_trace_envs); vm_compute; reflexivity.
Defined.
